(** * remove-forever: the streaming overwrite engine of [src/lib/writer.ts]

    A shallow embedding of the classes [FileWriter], [Random], [RandomByte],
    [Zero], [One], [Byte], [ByteArray], [FileProperties] and
    [DirectoryProperties], over an explicit model of the part of the Deno
    runtime they call (file system, [Deno.copy], [Deno.iter], the random
    sources and the hash accumulator). *)

From Stdlib Require Import ZArith QArith Qround Qpower Lia Lqa Floats.
From stdpp Require Import base option list strings gmap.
From Equations Require Import Equations.

Open Scope Z_scope.
Open Scope nat_scope.
Open Scope string_scope.
Open Scope list_scope.

(** ** Data model *)

(** A [Uint8Array] is a list of bytes, each an integer in [0, 256).  A JS
    number stored into it goes through [ToUint8] (only integer-valued numbers
    are modelled). *)
Abbreviation Uint8Array := (list Z).

Definition ToUint8 (n : Z) : Z := (n mod 256)%Z.

(** [new Uint8Array(n)]: zero-initialised. *)
Definition Uint8Array_new (n : nat) : Uint8Array := replicate n 0%Z.

(** [p.fill(v)]. *)
Definition Uint8Array_fill (p : Uint8Array) (v : Z) : Uint8Array :=
  replicate (length p) (ToUint8 v).

(** Modelled from the spec: [hash.Sha256], which [writer.ts] imports from
    [deps.ts], is the spec's checksum accumulator, "incremental hash state fed
    chunk-by-chunk, finalized to a digest for comparison": it is kept as the
    message fed to it so far, and its digest is the runtime's function of
    that message. *)
Record Sha256 := { message : list Z }.

Definition Sha256_new : Sha256 := {| message := [] |}.

Definition Sha256_update (h : Sha256) (chunk : list Z) : Sha256 :=
  {| message := message h ++ chunk |}.

(** [interface FileData]. [size] is a byte count, as [Deno.stat] gives it. *)
Record FileData := {
  path : string;
  size : nat;
  checksum : Sha256;
  verifyChecksum : bool
}.

(** [interface DirData]. *)
Record DirData := { dir_path : string }.

(** Objects of the file system. *)
Inductive node :=
| File (content : list Z)
| Directory.

(** The closures that [Byte.write] and [ByteArray.write] assign to the
    static property [getValues] of their class, with what they capture. *)
Inductive closure :=
| Byte_closure (byte : Z)
| ByteArray_closure (byteArray : list Z) (length : nat).

(** What is thrown or returned as a JS error value. *)
Inductive exn :=
| NotFound
| OsError (msg : string)
| Error (msg : string).

(** The parts of the runtime that [writer.ts] takes from outside: the buffer
    size of [Deno.copy] and [Deno.iter] (32 * 1024 in Deno), the digest of
    [hash.Sha256], the answers of the random sources in the order they are
    asked for, and the two functions of [path]. *)
Record Runtime := {
  bufSize : positive;
  hex_digest : list Z -> string;
  crypto_byte : nat -> Z;
  math_random : nat -> Q;
  uuid_v4 : nat -> string;
  path_dirname : string -> string;
  path_join : string -> string -> string
}.

Definition DEFAULT_BUFFER_SIZE : positive := 32768%positive.

(** The mutable world: the file system, the one target record the caller
    passes by reference (and the one directory record), how many answers
    each random source has given, and the static [getValues] properties that
    [Byte] and [ByteArray] own once their [write] has run ([None]: the class
    still inherits [FileWriter.getValues]). *)
Record State := {
  fs : gmap string node;
  fileData : FileData;
  dirData : DirData;
  crypto_drawn : nat;
  random_drawn : nat;
  uuid_drawn : nat;
  Byte_getValues : option closure;
  ByteArray_getValues : option closure
}.

Definition set_fs (f : gmap string node) (s : State) : State :=
  {| fs := f; fileData := fileData s; dirData := dirData s;
     crypto_drawn := crypto_drawn s; random_drawn := random_drawn s;
     uuid_drawn := uuid_drawn s; Byte_getValues := Byte_getValues s;
     ByteArray_getValues := ByteArray_getValues s |}.

Definition set_fileData (d : FileData) (s : State) : State :=
  {| fs := fs s; fileData := d; dirData := dirData s;
     crypto_drawn := crypto_drawn s; random_drawn := random_drawn s;
     uuid_drawn := uuid_drawn s; Byte_getValues := Byte_getValues s;
     ByteArray_getValues := ByteArray_getValues s |}.

Definition set_dirData (d : DirData) (s : State) : State :=
  {| fs := fs s; fileData := fileData s; dirData := d;
     crypto_drawn := crypto_drawn s; random_drawn := random_drawn s;
     uuid_drawn := uuid_drawn s; Byte_getValues := Byte_getValues s;
     ByteArray_getValues := ByteArray_getValues s |}.

Definition set_crypto_drawn (n : nat) (s : State) : State :=
  {| fs := fs s; fileData := fileData s; dirData := dirData s;
     crypto_drawn := n; random_drawn := random_drawn s;
     uuid_drawn := uuid_drawn s; Byte_getValues := Byte_getValues s;
     ByteArray_getValues := ByteArray_getValues s |}.

Definition set_random_drawn (n : nat) (s : State) : State :=
  {| fs := fs s; fileData := fileData s; dirData := dirData s;
     crypto_drawn := crypto_drawn s; random_drawn := n;
     uuid_drawn := uuid_drawn s; Byte_getValues := Byte_getValues s;
     ByteArray_getValues := ByteArray_getValues s |}.

Definition set_uuid_drawn (n : nat) (s : State) : State :=
  {| fs := fs s; fileData := fileData s; dirData := dirData s;
     crypto_drawn := crypto_drawn s; random_drawn := random_drawn s;
     uuid_drawn := n; Byte_getValues := Byte_getValues s;
     ByteArray_getValues := ByteArray_getValues s |}.

Definition set_Byte_getValues (c : closure) (s : State) : State :=
  {| fs := fs s; fileData := fileData s; dirData := dirData s;
     crypto_drawn := crypto_drawn s; random_drawn := random_drawn s;
     uuid_drawn := uuid_drawn s; Byte_getValues := Some c;
     ByteArray_getValues := ByteArray_getValues s |}.

Definition set_ByteArray_getValues (c : closure) (s : State) : State :=
  {| fs := fs s; fileData := fileData s; dirData := dirData s;
     crypto_drawn := crypto_drawn s; random_drawn := random_drawn s;
     uuid_drawn := uuid_drawn s; Byte_getValues := Byte_getValues s;
     ByteArray_getValues := Some c |}.

(** Field setters of the target record. *)
Definition with_path (p : string) (d : FileData) : FileData :=
  {| path := p; size := size d; checksum := checksum d;
     verifyChecksum := verifyChecksum d |}.

Definition with_size (n : nat) (d : FileData) : FileData :=
  {| path := path d; size := n; checksum := checksum d;
     verifyChecksum := verifyChecksum d |}.

Definition with_checksum (h : Sha256) (d : FileData) : FileData :=
  {| path := path d; size := size d; checksum := h;
     verifyChecksum := verifyChecksum d |}.

Definition with_verifyChecksum (b : bool) (d : FileData) : FileData :=
  {| path := path d; size := size d; checksum := checksum d;
     verifyChecksum := b |}.

(** ** A state and exception monad *)

Inductive Outcome (A : Type) :=
| Return (a : A)
| Throw (e : exn).
Arguments Return {A} a.
Arguments Throw {A} e.

Definition M (A : Type) : Type := State -> Outcome A * State.

Definition ret {A} (a : A) : M A := fun s => (Return a, s).

Definition throw {A} (e : exn) : M A := fun s => (Throw e, s).

Definition bind {A B} (m : M A) (k : A -> M B) : M B :=
  fun s =>
    match m s with
    | (Return a, s') => k a s'
    | (Throw e, s') => (Throw e, s')
    end.

Definition get : M State := fun s => (Return s, s).

Definition modify (f : State -> State) : M unit := fun s => (Return tt, f s).

Declare Scope js_scope.
Delimit Scope js_scope with js.
Notation "'let*' x := m 'in' k" := (bind m (fun x => k))
  (at level 10, x pattern, m at level 100, k at level 200) : js_scope.
Notation "m ;; k" := (bind m (fun _ => k))
  (at level 100, k at level 200, right associativity) : js_scope.
Open Scope js_scope.

(** ** Numbers *)

(** A JS number is a binary64 value; the finite ones are rationals, and the
    result of an arithmetic operation is the exact result rounded to the
    nearest binary64 value, ties to the even significand.  [binary64 x] is
    that rounding, for results of magnitude below 2^1024 (a larger one
    becomes [Infinity], which no size a number can hold leads to). *)

(** The exponent of a positive rational: [2^e <= x < 2^(e+1)]. *)
Definition Qlog2 (x : Q) : Z :=
  let e := (Z.log2 (Qnum x) - Z.log2 (Zpos (Qden x)))%Z in
  if Qle_bool (2 ^ e) x then e else (e - 1)%Z.

(** The integer nearest to [x], the even one of the two when [x] is half
    way. *)
Definition rne (x : Q) : Z :=
  let f := Qfloor x in
  match (x - inject_Z f ?= 1 # 2)%Q with
  | Lt => f
  | Gt => (f + 1)%Z
  | Eq => if Z.even f then f else (f + 1)%Z
  end.

(** A positive [x] is rounded to a multiple of [2^q], where [q] leaves 53
    bits to the significand, and is at least -1074, the exponent of the
    subnormal numbers. *)
Definition binary64_pos (x : Q) : Q :=
  let q := Z.max (Qlog2 x - 52) (-1074) in
  (inject_Z (rne (x * 2 ^ (- q))) * 2 ^ q)%Q.

Definition binary64 (x : Q) : Q :=
  match (x ?= 0)%Q with
  | Eq => 0%Q
  | Gt => binary64_pos x
  | Lt => (- binary64_pos (- x))%Q
  end.

(** The value of one of the kernel's binary64 floats, to compare [binary64]
    with the arithmetic of the machine. *)
Definition Q_of_float (f : float) : Q :=
  match Prim2SF f with
  | S754_finite s m e => ((if s then -1 else 1) * inject_Z (Z.pos m) * 2 ^ e)%Q
  | _ => 0%Q
  end.

(** ** Paths *)

(** [strip_prefix pre s] is what follows [pre] in [s], when [s] starts with
    [pre]. *)
Fixpoint strip_prefix (pre s : string) : option string :=
  match pre, s with
  | EmptyString, _ => Some s
  | String a pre', String b s' =>
      if Ascii.eqb a b then strip_prefix pre' s' else None
  | String _ _, EmptyString => None
  end.

(** [p] lies below the directory [d]: it is [d], a slash, and more. *)
Definition below (d p : string) : bool :=
  match strip_prefix (String.append d "/") p with
  | Some _ => true
  | None => false
  end.

(** Where the path [p] is after the directory [old] has become [new]. *)
Definition relocate (old new p : string) : string :=
  if String.eqb p old then new
  else match strip_prefix (String.append old "/") p with
       | Some t => String.append new (String.append "/" t)
       | None => p
       end.

(** ** The Deno runtime *)

(** [dest.write(chunk)] at file position [off]: the bytes at [off ..] are
    overwritten, the file grows when the chunk ends past its end. *)
Definition write_at (off : nat) (chunk content : list Z) : list Z :=
  take off content ++ replicate (off - length content) 0%Z ++ chunk
    ++ drop (off + length chunk) content.

Definition fs_write (p : string) (off : nat) (chunk : list Z)
    (f : gmap string node) : gmap string node :=
  match f !! p with
  | Some (File c) => <[p := File (write_at off chunk c)]> f
  | _ => f
  end.

(** [Deno.open(path, { write: true })] and [Deno.open(path, { read: true })]:
    the path must name an existing file; the handle is the path. *)
Definition Deno_open (p : string) : M string :=
  let* s := get in
  match fs s !! p with
  | Some (File _) => ret p
  | Some Directory => throw (OsError "Is a directory")
  | None => throw NotFound
  end.

(** [Deno.stat(path)]: [(isFile, isDirectory, size)]. *)
Definition Deno_stat (p : string) : M (bool * bool * nat) :=
  let* s := get in
  match fs s !! p with
  | Some (File c) => ret (true, false, length c)
  | Some Directory => ret (false, true, 0)
  | None => throw NotFound
  end.

(** The file system after the directory at [old] has been renamed [new]:
    the directory and everything below it are at their new paths. *)
Definition move_tree (old new : string) (f : gmap string node)
    : gmap string node :=
  list_to_map (prod_map (relocate old new) id <$> map_to_list f).

(** [Deno.rename(oldpath, newpath)], as rename(2) on the objects modelled.
    A file replaces a file at [newpath] ("if newpath already exists and is
    not a directory, rename() replaces it") and is refused a directory there.
    A directory moves with everything below it; it replaces an empty
    directory at [newpath] and is refused a file or a directory that is not
    empty there, and a [newpath] below itself.  Renaming an object to its own
    path does nothing. *)
Definition Deno_rename (oldpath newpath : string) : M unit :=
  let* s := get in
  match fs s !! oldpath with
  | None => throw NotFound
  | Some (File c) =>
      match fs s !! newpath with
      | Some Directory => throw (OsError "Is a directory")
      | _ => modify (set_fs (<[newpath := File c]> (delete oldpath (fs s))))
      end
  | Some Directory =>
      if String.eqb oldpath newpath then ret tt
      else
        match fs s !! newpath with
        | Some (File _) => throw (OsError "Not a directory")
        | _ =>
            if below oldpath newpath then throw (OsError "Invalid argument")
            else if decide (map_Forall (fun p _ => below newpath p = false) (fs s))
            then modify (set_fs (move_tree oldpath newpath (delete newpath (fs s))))
            else throw (OsError "Directory not empty")
        end
  end.

(** [Deno.truncate(name, len)]: cut to [len] bytes, or pad with zeros. *)
Definition Deno_truncate (name : string) (len : nat) : M unit :=
  let* s := get in
  match fs s !! name with
  | Some (File c) =>
      modify (set_fs (<[name := File (take len c ++ replicate (len - length c) 0%Z)]> (fs s)))
  | Some Directory => throw (OsError "Is a directory")
  | None => throw NotFound
  end.

Section Writer.

Variable rt : Runtime.

(** [crypto.getRandomValues(p)]: the next [p.length] bytes of the source. *)
Definition crypto_getRandomValues (p : Uint8Array) : M Uint8Array :=
  let* s := get in
  modify (set_crypto_drawn (crypto_drawn s + length p));;
  ret (map (fun i => ToUint8 (crypto_byte rt i)) (seq (crypto_drawn s) (length p))).

(** [Math.random()]. *)
Definition Math_random : M Q :=
  let* s := get in
  modify (set_random_drawn (S (random_drawn s)));;
  ret (math_random rt (random_drawn s)).

(** [uuid.v4.generate()]. *)
Definition uuid_v4_generate : M string :=
  let* s := get in
  modify (set_uuid_drawn (S (uuid_drawn s)));;
  ret (uuid_v4 rt (uuid_drawn s)).

(** ** Pattern classes *)

Inductive WriterClass :=
| FileWriter | Random | RandomByte | Zero | One | Byte | ByteArray.

(** The function found under the name [getValues]: a static method of one
    of the classes, or a closure assigned by [Byte.write] or
    [ByteArray.write]. *)
Inductive method :=
| Static (c : WriterClass)
| Assigned (c : closure).

(** [FileWriter.getValues]: empty body. *)
Definition FileWriter_getValues (p : Uint8Array) : M Uint8Array := ret p.

Definition Random_getValues (p : Uint8Array) : M Uint8Array :=
  crypto_getRandomValues p.

Definition RandomByte_getValues (p : Uint8Array) : M Uint8Array :=
  let byte := Uint8Array_new 1 in
  let* byte := crypto_getRandomValues byte in
  ret (Uint8Array_fill p (default 0%Z (byte !! 0))).

Definition Zero_getValues (p : Uint8Array) : M Uint8Array :=
  ret (Uint8Array_fill p 0x000000%Z).

Definition One_getValues (p : Uint8Array) : M Uint8Array :=
  ret (Uint8Array_fill p 0xFFFFFF%Z).

(** [byteArray[i % length]] stored into a [Uint8Array]: with [length] 0 the
    index is NaN, the element [undefined], and the byte stored 0; the same for
    an index past the end of the array. *)
Definition byteArray_at (byteArray : list Z) (length i : nat) : Z :=
  match length with
  | 0 => 0%Z
  | S _ => match byteArray !! (i mod length) with
           | Some v => ToUint8 v
           | None => 0%Z
           end
  end.

Definition call_closure (c : closure) (p : Uint8Array) : M Uint8Array :=
  match c with
  | Byte_closure byte => ret (Uint8Array_fill p byte)
  | ByteArray_closure byteArray len =>
      ret (map (byteArray_at byteArray len) (seq 0 (length p)))
  end.

Definition call (g : method) (p : Uint8Array) : M Uint8Array :=
  match g with
  | Static FileWriter | Static Byte | Static ByteArray => FileWriter_getValues p
  | Static Random => Random_getValues p
  | Static RandomByte => RandomByte_getValues p
  | Static Zero => Zero_getValues p
  | Static One => One_getValues p
  | Assigned c => call_closure c p
  end.

(** [const { getValues } = this]: the class's own property if it has one,
    the inherited [FileWriter.getValues] otherwise. *)
Definition this_getValues (this : WriterClass) : M method :=
  let* s := get in
  match this with
  | Byte =>
      ret (match Byte_getValues s with Some c => Assigned c | None => Static FileWriter end)
  | ByteArray =>
      ret (match ByteArray_getValues s with Some c => Assigned c | None => Static FileWriter end)
  | c => ret (Static c)
  end.

(** ** [FileWriter] *)

(** The [read] method of the reader [src] that [FileWriter.write] builds
    (lines 34-49).  [p] is the buffer [Deno.copy] passes, [size] the local
    variable of [write] that the closure captures: the buffer after the call,
    the new value of [size] and the resolved value ([None] for [null]) are
    returned. *)
Definition read (getValues : method) (p : Uint8Array) (size : nat)
    : M (option nat * Uint8Array * nat) :=
  let length := Nat.min (length p) size in
  let size := size - length in
  if Nat.eqb length 0 then ret (None, p, size)
  else
    let* p := call getValues p in
    let* s := get in
    (if verifyChecksum (fileData s)
     then modify (set_fileData
            (with_checksum (Sha256_update (checksum (fileData s)) (take length p))
               (fileData s)))
     else ret tt);;
    ret (Some length, p, size).

Definition inspect {A} (a : A) : {b : A | a = b} := exist _ a eq_refl.

(** [Deno.copy(src, dest)] for that reader: [b] is the buffer of [copy],
    [pos] the position of the handle [dest], [size] the captured variable.
    The loop ends when [read] resolves to [null]; what is returned is the
    final value of [size] (the byte count [copy] returns is dropped by
    [write]).  [dest.write] is repeated by [copy] until the whole chunk
    [b.subarray(0, result)] is written. *)
Equations? Deno_copy (src : method) (dest : string) (pos : nat)
    (b : Uint8Array) (size : nat) (s : State) : Outcome nat * State
    by wf size lt :=
  Deno_copy src dest pos b size s with inspect (read src b size s) := {
    | exist _ (Throw e, s') _ := (Throw e, s');
    | exist _ (Return (None, _, size'), s') _ := (Return size', s');
    | exist _ (Return (Some result, b', size'), s') H :=
        Deno_copy src dest (pos + result) b' size'
          (set_fs (fs_write dest pos (take result b') (fs s')) s') }.
Proof.
  clear Deno_copy. revert H. unfold read.
  destruct (Nat.eqb_spec (Nat.min (length b) size0) 0) as [E|E];
    [ discriminate | ].
  unfold bind.
  destruct (call src b s) as [[q|] s1]; [ | discriminate ].
  cbn. destruct (verifyChecksum (fileData s1)); cbn; intros [= <- _ <- _]; lia.
Qed.

(** [Deno.iter(src)]: the content of the file in chunks of at most
    [bufSize] bytes. *)
Equations? Deno_iter (content : list Z) : list (list Z)
    by wf (length content) lt :=
  Deno_iter [] := [];
  Deno_iter (x :: l) :=
    take (Pos.to_nat (bufSize rt)) (x :: l)
      :: Deno_iter (drop (Pos.to_nat (bufSize rt)) (x :: l)).
Proof.
  rewrite length_drop. cbn. lia.
Qed.

(** [checksum.hex()]. *)
Definition Sha256_hex (h : Sha256) : string := hex_digest rt (message h).

(** [FileWriter.init]. *)
Definition FileWriter_init (p : string) : M unit :=
  let* (isFile, _, size) := Deno_stat p in
  if negb isFile then throw (Error "The specified path is not a file.")
  else
    let checksum := Sha256_new in
    let verifyChecksum := false in
    modify (set_fileData {| path := p; size := size; checksum := checksum;
                            verifyChecksum := verifyChecksum |}).

(** [FileWriter.verify]: the value returned is the [Error] object, or
    [None] for [undefined]. *)
Definition FileWriter_verify : M (option exn) :=
  let* s := get in
  let* src := Deno_open (path (fileData s)) in
  let checksum' := Sha256_new in
  let* s := get in
  let checksum' :=
    match fs s !! src with
    | Some (File c) => foldl Sha256_update checksum' (Deno_iter c)
    | _ => checksum'
    end in
  let* s := get in
  if negb (String.eqb (Sha256_hex (checksum (fileData s))) (Sha256_hex checksum'))
  then ret (Some (Error "Invalid checksum"))
  else ret None.

(** [FileWriter.write], called with [this] bound to the class whose
    [write] was invoked ([super.write] keeps it). *)
Definition FileWriter_write (this : WriterClass) : M unit :=
  let* s := get in
  let* dest := Deno_open (path (fileData s)) in
  let* getValues := this_getValues this in
  let* s := get in
  let size := size (fileData s) in
  let* _ := Deno_copy getValues dest 0
              (Uint8Array_new (Pos.to_nat (bufSize rt))) size in
  let* s := get in
  if verifyChecksum (fileData s) then
    modify (set_fileData (with_verifyChecksum false (fileData s)));;
    let* _ := FileWriter_verify in
    ret tt
  else ret tt.

(** [FileWriter.verifyNext]. *)
Definition FileWriter_verifyNext : M unit :=
  modify (fun s => set_fileData (with_verifyChecksum true (fileData s)) s);;
  modify (fun s => set_fileData (with_checksum Sha256_new (fileData s)) s).

(** ** The pattern classes' [write] *)

Definition Random_write : M unit := FileWriter_write Random.

Definition RandomByte_write : M unit := FileWriter_write RandomByte.

Definition Zero_write : M unit := FileWriter_write Zero.

Definition One_write : M unit := FileWriter_write One.

Definition Byte_write (byte : Z) : M unit :=
  modify (set_Byte_getValues (Byte_closure byte));;
  FileWriter_write Byte.

Definition ByteArray_write (byteArray : list Z) : M unit :=
  let length := length byteArray in
  modify (set_ByteArray_getValues (ByteArray_closure byteArray length));;
  FileWriter_write ByteArray.

(** The seven ways a caller starts a write: the class and the arguments. *)
Inductive invocation :=
| FileWriter_write_call
| Random_write_call
| RandomByte_write_call
| Zero_write_call
| One_write_call
| Byte_write_call (byte : Z)
| ByteArray_write_call (byteArray : list Z).

Definition invoke (i : invocation) : M unit :=
  match i with
  | FileWriter_write_call => FileWriter_write FileWriter
  | Random_write_call => Random_write
  | RandomByte_write_call => RandomByte_write
  | Zero_write_call => Zero_write
  | One_write_call => One_write
  | Byte_write_call byte => Byte_write byte
  | ByteArray_write_call byteArray => ByteArray_write byteArray
  end.

(** ** [FileProperties], [DirectoryWriter], [DirectoryProperties] *)

Definition FileProperties_rename : M unit :=
  let* s := get in
  let* newName := uuid_v4_generate in
  let newPath := path_join rt (path_dirname rt (path (fileData s))) newName in
  Deno_rename (path (fileData s)) newPath;;
  modify (fun s => set_fileData (with_path newPath (fileData s)) s).

(** [Math.floor((0.25 + Math.random() * 0.5) * fileData.size)]: [r] is the
    number that [Math.random()] returned, and each of the three operations
    rounds its result to binary64. *)
Definition truncate_newSize (r : Q) (size : nat) : Z :=
  Qfloor (binary64 (binary64 ((1 # 4) + binary64 (r * (1 # 2)))
                    * inject_Z (Z.of_nat size))).

Definition FileProperties_truncate : M unit :=
  let* s := get in
  let* r := Math_random in
  let newSize := Z.to_nat (truncate_newSize r (size (fileData s))) in
  Deno_truncate (path (fileData s)) newSize;;
  modify (fun s => set_fileData (with_size newSize (fileData s)) s).

Definition DirectoryWriter_init (p : string) : M unit :=
  let* (_, isDirectory, _) := Deno_stat p in
  if negb isDirectory then throw (Error "The specified path is not a directory.")
  else modify (set_dirData {| dir_path := p |}).

Definition DirectoryProperties_rename : M unit :=
  let* s := get in
  let* newName := uuid_v4_generate in
  let newPath := path_join rt (path_dirname rt (dir_path (dirData s))) newName in
  Deno_rename (dir_path (dirData s)) newPath;;
  modify (set_dirData {| dir_path := newPath |}).

End Writer.

(** ** A concrete runtime for examples *)

(** A digest that is the message itself, written as characters: enough to
    tell two messages apart. *)
Definition toy_digest (m : list Z) : string :=
  String.string_of_list_ascii (map (fun z => Ascii.ascii_of_N (Z.to_N z)) m).

(** Everything before the last slash. *)
Fixpoint toy_dirname_aux (cs : list Ascii.ascii) : option (list Ascii.ascii) :=
  match cs with
  | [] => None
  | c :: cs' =>
      match toy_dirname_aux cs' with
      | Some d => Some (c :: d)
      | None => if Ascii.eqb c (Ascii.ascii_of_nat 47) then Some [] else None
      end
  end.

Definition toy_dirname (p : string) : string :=
  match toy_dirname_aux (String.list_ascii_of_string p) with
  | Some d => String.string_of_list_ascii d
  | None => "."
  end.

Definition toy_join (d n : string) : string :=
  String.append d (String.append "/" n).

Definition toy_runtime (n : positive) (crypto : nat -> Z) (rnd : nat -> Q)
    (uuid : nat -> string) : Runtime :=
  {| bufSize := n; hex_digest := toy_digest;
     crypto_byte := crypto; math_random := rnd; uuid_v4 := uuid;
     path_dirname := toy_dirname; path_join := toy_join |}.

Definition initial_state (f : gmap string node) (d : FileData) : State :=
  {| fs := f; fileData := d; dirData := {| dir_path := "" |};
     crypto_drawn := 0; random_drawn := 0; uuid_drawn := 0;
     Byte_getValues := None; ByteArray_getValues := None |}.


(** ** Notions used in the statements *)

Section Derived.

Variable rt : Runtime.

(** The buffer after the call and the number of bytes drawn from
    [crypto] after it, from the buffer and the number drawn before. *)
Definition fill (g : method) (p : Uint8Array) (k : nat) : Uint8Array * nat :=
  match g with
  | Static Random =>
      (map (fun i => ToUint8 (crypto_byte rt i)) (seq k (length p)), k + length p)
  | Static RandomByte =>
      (Uint8Array_fill p (ToUint8 (crypto_byte rt k)), k + 1)
  | Static Zero => (Uint8Array_fill p 0%Z, k)
  | Static One => (Uint8Array_fill p 0xFFFFFF%Z, k)
  | Assigned (Byte_closure byte) => (Uint8Array_fill p byte, k)
  | Assigned (ByteArray_closure a len) =>
      (map (byteArray_at a len) (seq 0 (length p)), k)
  | _ => (p, k)
  end.

(** The bytes a copy of [size] bytes writes, chunk after chunk, and the
    number of bytes drawn from [crypto] at its end. *)
Fixpoint written (fuel : nat) (g : method) (b : Uint8Array) (size k : nat)
    : list Z * nat :=
  match fuel with
  | 0 => ([], k)
  | S fuel =>
      let n := Nat.min (length b) size in
      if Nat.eqb n 0 then ([], k)
      else
        let b' := fst (fill g b k) in
        let r := written fuel g b' (size - n) (snd (fill g b k)) in
        (take n b' ++ fst r, snd r)
  end.

(** The state a copy leaves: the file at [dest] with [w] written at
    [pos], the checksum fed with [w] when verification is requested, [k]
    bytes drawn. *)
Definition after_copy (s : State) (dest : string) (pos : nat) (c w : list Z)
    (k : nat) : State :=
  {| fs := <[dest := File (write_at pos w c)]> (fs s);
     fileData :=
       if verifyChecksum (fileData s)
       then with_checksum (Sha256_update (checksum (fileData s)) w) (fileData s)
       else fileData s;
     dirData := dirData s; crypto_drawn := k;
     random_drawn := random_drawn s; uuid_drawn := uuid_drawn s;
     Byte_getValues := Byte_getValues s;
     ByteArray_getValues := ByteArray_getValues s |}.

(** The function [const { getValues } = this] finds. *)
Definition method_of (this : WriterClass) (s : State) : method :=
  match this with
  | Byte =>
      match Byte_getValues s with Some c => Assigned c | None => Static FileWriter end
  | ByteArray =>
      match ByteArray_getValues s with Some c => Assigned c | None => Static FileWriter end
  | c => Static c
  end.

(** The bytes [write] produces for the method [g], for a target of [n]
    bytes, with [k] bytes of [crypto] drawn before. *)
Definition stream (g : method) (n k : nat) : list Z * nat :=
  written n g (Uint8Array_new (Pos.to_nat (bufSize rt))) n k.

(** The state [write] leaves when the file has content [c] and the bytes
    written are [w]. *)
Definition after_write (s : State) (c w : list Z) (k : nat) : State :=
  {| fs := <[path (fileData s) := File (w ++ drop (length w) c)]> (fs s);
     fileData :=
       if verifyChecksum (fileData s)
       then {| path := path (fileData s); size := size (fileData s);
               checksum := Sha256_update (checksum (fileData s)) w;
               verifyChecksum := false |}
       else fileData s;
     dirData := dirData s; crypto_drawn := k;
     random_drawn := random_drawn s; uuid_drawn := uuid_drawn s;
     Byte_getValues := Byte_getValues s;
     ByteArray_getValues := ByteArray_getValues s |}.

(** The method an invocation installs or inherits, and the state in which
    it reaches [FileWriter.write]. *)
Definition method_for (i : invocation) : method :=
  match i with
  | FileWriter_write_call => Static FileWriter
  | Random_write_call => Static Random
  | RandomByte_write_call => Static RandomByte
  | Zero_write_call => Static Zero
  | One_write_call => Static One
  | Byte_write_call byte => Assigned (Byte_closure byte)
  | ByteArray_write_call a => Assigned (ByteArray_closure a (length a))
  end.

Definition prepared (i : invocation) (s : State) : State :=
  match i with
  | Byte_write_call byte => set_Byte_getValues (Byte_closure byte) s
  | ByteArray_write_call a =>
      set_ByteArray_getValues (ByteArray_closure a (length a)) s
  | _ => s
  end.

Definition class_of (i : invocation) : WriterClass :=
  match i with
  | FileWriter_write_call => FileWriter
  | Random_write_call => Random
  | RandomByte_write_call => RandomByte
  | Zero_write_call => Zero
  | One_write_call => One
  | Byte_write_call _ => Byte
  | ByteArray_write_call _ => ByteArray
  end.

End Derived.

(** Concrete inputs: a file [/d/a] with content [c], a target record of
    [n] bytes for it, and runtimes whose [crypto] source yields 0, 1, 2, ...
    and whose [uuid] source yields [u]. *)
Definition one_file (c : list Z) : gmap string node := {[ "/d/a" := File c ]}.

Definition target (n : nat) (v : bool) : FileData :=
  {| path := "/d/a"; size := n; checksum := Sha256_new; verifyChecksum := v |}.

Definition deno : Runtime :=
  toy_runtime DEFAULT_BUFFER_SIZE (fun n => Z.of_nat n) (fun _ => 0%Q) (fun _ => "u").

Definition deno4 : Runtime :=
  toy_runtime 4 (fun n => Z.of_nat n) (fun _ => 0%Q) (fun _ => "u").

Definition content_at (p : string) (s : State) : list Z :=
  match fs s !! p with
  | Some (File c) => c
  | _ => []
  end.

(** The record of a target, file ([false]) or directory ([true]). *)
Definition target_path (dir : bool) (s : State) : string :=
  if dir then dir_path (dirData s) else path (fileData s).

Definition rename (rt : Runtime) (dir : bool) : M unit :=
  if dir then DirectoryProperties_rename rt else FileProperties_rename rt.

(** What [Deno.rename] asks of the two paths to move the object [o] from
    [old] to [new] in [f]: a file takes the place of anything but a directory;
    a directory stays where it is when the paths are equal, and otherwise takes
    the place of nothing or of an empty directory that is not below it. *)
Definition rename_accepts (f : gmap string node) (o : node) (old new : string)
    : Prop :=
  match o with
  | File _ => f !! new <> Some Directory
  | Directory =>
      old = new \/
      ((forall c, f !! new <> Some (File c)) /\
       below old new = false /\
       map_Forall (fun p _ => below new p = false) f)
  end.

Definition two_files : gmap string node :=
  <[ "/d/u" := File [2]%Z ]> (one_file [1]%Z).

(** A directory [/d/a] that holds the file [x], beside an empty directory
    [/d/u]; and the state in which the directory record names [/d/a]. *)
Definition two_dirs : gmap string node :=
  <[ "/d/a" := Directory ]> (<[ "/d/a/x" := File [1]%Z ]>
    (<[ "/d/u" := Directory ]> ∅)).

Definition dir_state (f : gmap string node) (p : string) : State :=
  set_dirData {| dir_path := p |} (initial_state f (target 0 false)).

Definition draws_random (i : invocation) : bool :=
  match i with
  | Random_write_call | RandomByte_write_call => true
  | _ => false
  end.

(** ** Timestamps *)

(** A [Date] is kept as its time value, in whole milliseconds since the
    epoch (valid dates only).  The access and modification times of the
    objects of the file system are kept beside the state, as a map from paths
    to [(atime, mtime)]: the functions below take the map and return the new
    one; when they throw, the times are as they were. *)

(** [new Date(value)] for a number: the time value is [value] truncated
    toward zero. *)
Definition Date_of (value : Q) : Z := Z.quot (Qnum value) (Zpos (Qden value)).

(** [Deno.utime(path, atime, mtime)]. *)
Definition Deno_utime (p : string) (atime mtime : Z)
    (times : gmap string (Z * Z)) : M (gmap string (Z * Z)) :=
  let* s := get in
  match fs s !! p with
  | Some _ => ret (<[p := (atime, mtime)]> times)
  | None => throw NotFound
  end.

Section Timestamps.

Variable rt : Runtime.

(** [function randomValueBetween(min, max)], in exact rational
    arithmetic. *)
Definition randomValueBetween (min max : Q) : M Q :=
  let* r := Math_random rt in
  ret (r * (max - min) + min)%Q.

(** [resetTimestamps] of [FileProperties] ([dir = false]) and of
    [DirectoryProperties] ([dir = true]): the same body on the record of the
    target. *)
Definition resetTimestamps (dir : bool) (times : gmap string (Z * Z))
    : M (gmap string (Z * Z)) :=
  let* s := get in
  Deno_utime (target_path dir s) 0%Z 0%Z times.

(** [changeTimestamps] of both classes.  [date1] and [date2] are the
    properties of the options object, [None] for an absent one; [now] is the
    time value of the [new Date()] that is the default of [date2]. *)
Definition changeTimestamps (dir : bool) (now : Z) (date1 date2 : option Z)
    (times : gmap string (Z * Z)) : M (gmap string (Z * Z)) :=
  let date1 := default 0%Z date1 in
  let date2 := default now date2 in
  let* v := randomValueBetween (inject_Z date2) (inject_Z date1) in
  let date := Date_of v in
  let* s := get in
  Deno_utime (target_path dir s) date date times.

End Timestamps.

(** A runtime like [deno] whose [Math.random()] yields 1/2, and a directory
    [/d] beside the file. *)
Definition deno_half : Runtime :=
  toy_runtime DEFAULT_BUFFER_SIZE (fun n => Z.of_nat n) (fun _ => (1 # 2)%Q)
    (fun _ => "u").

Definition file_and_dir (c : list Z) : gmap string node :=
  <[ "/d" := Directory ]> (one_file c).

(** * Properties *)

(** ** Rounding to binary64 *)

Section Binary64Facts.

Local Open Scope Z_scope.

Lemma pow2_pos (z : Z) : (0 < 2 ^ z)%Q.
Proof. apply Qpower_0_lt. reflexivity. Qed.

Lemma pow2_add (a b : Z) : (2 ^ (a + b) == 2 ^ a * 2 ^ b)%Q.
Proof. apply Qpower_plus. discriminate. Qed.

Lemma pow2_le (a b : Z) : (a <= b)%Z -> (2 ^ a <= 2 ^ b)%Q.
Proof. intros H. apply Qpower_le_compat_l; [ exact H | discriminate ]. Qed.

Lemma pow2_lt_inv (a b : Z) : (2 ^ a < 2 ^ b)%Q -> (a < b)%Z.
Proof. intros H. apply (Qpower_lt_compat_l_inv 2); [ exact H | reflexivity ]. Qed.

Lemma pow2_Z (z : Z) : (0 <= z)%Z -> (inject_Z (2 ^ z) == 2 ^ z)%Q.
Proof. intros H. apply (Zpower_Qpower 2 z H). Qed.

Lemma Qlog2_spec (x : Q) :
  (0 < x)%Q -> (2 ^ Qlog2 x <= x)%Q /\ (x < 2 ^ (Qlog2 x + 1))%Q.
Proof.
  intros Hx. destruct x as [n d].
  assert (Hn : (0 < n)%Z) by (unfold Qlt in Hx; cbn in Hx; lia).
  unfold Qlog2. cbn [Qnum Qden].
  destruct (Z.log2_spec n Hn) as [Ha1 Ha2].
  destruct (Z.log2_spec (Z.pos d) ltac:(lia)) as [Hb1 Hb2].
  set (a := Z.log2 n) in *. set (b := Z.log2 (Z.pos d)) in *.
  assert (Ha0 : (0 <= a)%Z) by apply Z.log2_nonneg.
  assert (Hb0 : (0 <= b)%Z) by apply Z.log2_nonneg.
  assert (Hx' : (n # d) * inject_Z (Z.pos d) == inject_Z n).
  { unfold Qeq, Qmult, inject_Z. cbn [Qnum Qden]. rewrite Pos.mul_1_r. ring. }
  assert (HA1 : (2 ^ a <= inject_Z n)%Q)
    by (rewrite <- pow2_Z by lia; rewrite <- Zle_Qle; exact Ha1).
  assert (HA2 : (inject_Z n < 2 ^ (a + 1))%Q).
  { rewrite <- pow2_Z by lia. rewrite <- Zlt_Qlt.
    replace (a + 1)%Z with (Z.succ a) by lia. exact Ha2. }
  assert (HB1 : (2 ^ b <= inject_Z (Z.pos d))%Q)
    by (rewrite <- pow2_Z by lia; rewrite <- Zle_Qle; exact Hb1).
  assert (HB2 : (inject_Z (Z.pos d) < 2 ^ (b + 1))%Q).
  { rewrite <- pow2_Z by lia. rewrite <- Zlt_Qlt.
    replace (b + 1)%Z with (Z.succ b) by lia. exact Hb2. }
  pose proof (pow2_pos b) as Pb. pose proof (pow2_pos (b + 1)) as Pb1.
  pose proof (pow2_pos (a - b)) as Pe. pose proof (pow2_pos (a - b - 1)) as Pe'.
  assert (E1 : (2 ^ (a - b + 1) * 2 ^ b == 2 ^ (a + 1))%Q).
  { rewrite <- pow2_add. replace (a - b + 1 + b)%Z with (a + 1)%Z by lia. reflexivity. }
  assert (E2 : (2 ^ (a - b - 1) * 2 ^ (b + 1) == 2 ^ a)%Q).
  { rewrite <- pow2_add. replace (a - b - 1 + (b + 1))%Z with a by lia. reflexivity. }
  assert (E3 : (2 ^ (a - b - 1 + 1) == 2 ^ (a - b))%Q)
    by (replace (a - b - 1 + 1)%Z with (a - b)%Z by lia; reflexivity).
  revert Hx Hx' HA1 HA2 HB1 HB2 Pb Pb1 Pe Pe' E1 E2 E3.
  generalize (inject_Z n) (inject_Z (Z.pos d)) (n # d).
  intros N D X Hx Hx' HA1 HA2 HB1 HB2 Pb Pb1 Pe Pe' E1 E2 E3.
  destruct (Qle_bool (2 ^ (a - b)) X) eqn:Hc.
  - apply Qle_bool_iff in Hc. split; [ exact Hc | ].
    apply Qnot_le_lt. intros Hge.
    assert (2 ^ (a - b + 1) * 2 ^ b <= X * D)%Q by nra. nra.
  - assert (Hlt : (X < 2 ^ (a - b))%Q).
    { apply Qnot_le_lt. intros H. apply Qle_bool_iff in H. congruence. }
    split.
    + apply Qnot_lt_le. intros Hlt'.
      assert (X * D < 2 ^ (a - b - 1) * 2 ^ (b + 1))%Q by nra. nra.
    + rewrite E3. exact Hlt.
Qed.

Lemma Qlog2_unique (x : Q) (k : Z) :
  (2 ^ k <= x)%Q -> (x < 2 ^ (k + 1))%Q -> Qlog2 x = k.
Proof.
  intros H1 H2.
  assert (Hx : (0 < x)%Q) by (pose proof (pow2_pos k); nra).
  destruct (Qlog2_spec x Hx) as [S1 S2].
  assert ((Qlog2 x < k + 1)%Z) by (apply pow2_lt_inv; nra).
  assert ((k < Qlog2 x + 1)%Z) by (apply pow2_lt_inv; nra).
  lia.
Qed.

Lemma Qlog2_mono (x y : Q) : (0 < x)%Q -> (x <= y)%Q -> (Qlog2 x <= Qlog2 y)%Z.
Proof.
  intros Hx Hxy.
  destruct (Qlog2_spec x Hx) as [S1 _].
  destruct (Qlog2_spec y ltac:(nra)) as [_ T2].
  assert ((Qlog2 x < Qlog2 y + 1)%Z) by (apply pow2_lt_inv; nra).
  lia.
Qed.

Lemma rne_comp (x y : Q) : (x == y)%Q -> rne x = rne y.
Proof.
  intros H. unfold rne.
  assert (Hf : Qfloor x = Qfloor y) by (rewrite H; reflexivity).
  assert (Hc : (x - inject_Z (Qfloor x) ?= 1 # 2)%Q
               = (y - inject_Z (Qfloor y) ?= 1 # 2)%Q)
    by (rewrite Hf, H; reflexivity).
  rewrite Hc, Hf. reflexivity.
Qed.

Lemma rne_Z (z : Z) : rne (inject_Z z) = z.
Proof.
  unfold rne. rewrite Qfloor_Z.
  assert (H : (inject_Z z - inject_Z z ?= 1 # 2)%Q = Lt).
  { apply (proj1 (Qlt_alt _ _)). lra. }
  rewrite H. reflexivity.
Qed.

Lemma rne_bounds (x : Q) : (Qfloor x <= rne x <= Qfloor x + 1)%Z.
Proof.
  unfold rne. destruct (_ ?= _)%Q; [ destruct (Z.even _) | | ]; lia.
Qed.

Lemma rne_mono (x y : Q) : (x <= y)%Q -> (rne x <= rne y)%Z.
Proof.
  intros Hxy.
  pose proof (Qfloor_resp_le x y Hxy) as Hf.
  pose proof (rne_bounds x) as Bx. pose proof (rne_bounds y) as By.
  destruct (Z.eq_dec (Qfloor x) (Qfloor y)) as [E|E]; [ | lia ].
  unfold rne. rewrite <- E.
  destruct (Qcompare_spec (x - inject_Z (Qfloor x)) (1 # 2)) as [Hx|Hx|Hx];
  destruct (Qcompare_spec (y - inject_Z (Qfloor x)) (1 # 2)) as [Hy|Hy|Hy];
    try destruct (Z.even (Qfloor x)); try lia; exfalso; nra.
Qed.

Lemma binary64_exact (m e : Z) :
  (0 < m < 2 ^ 53)%Z -> (-1074 <= e)%Z ->
  (binary64 (inject_Z m * 2 ^ e) == inject_Z m * 2 ^ e)%Q.
Proof.
  intros Hm He.
  set (x := (inject_Z m * 2 ^ e)%Q).
  assert (Pm : (0 < inject_Z m)%Q) by (rewrite <- (Zlt_Qlt 0); lia).
  pose proof (pow2_pos e) as Pe.
  assert (Hx : (0 < x)%Q) by (unfold x; nra).
  unfold binary64. rewrite (proj1 (Qgt_alt x 0) Hx).
  unfold binary64_pos.
  destruct (Z.log2_spec m ltac:(lia)) as [L1 L2].
  assert (L0 : (0 <= Z.log2 m)%Z) by apply Z.log2_nonneg.
  assert (L53 : (Z.log2 m < 53)%Z) by (apply Z.log2_lt_pow2; lia).
  assert (Hl : Qlog2 x = (Z.log2 m + e)%Z).
  { apply Qlog2_unique; unfold x.
    - rewrite pow2_add. apply Qmult_le_compat_r; [ | apply Qlt_le_weak, Pe ].
      rewrite <- pow2_Z by lia. rewrite <- Zle_Qle. exact L1.
    - replace (Z.log2 m + e + 1)%Z with ((Z.log2 m + 1) + e)%Z by lia.
      rewrite pow2_add. apply Qmult_lt_compat_r; [ exact Pe | ].
      rewrite <- pow2_Z by lia. rewrite <- Zlt_Qlt.
      replace (Z.log2 m + 1)%Z with (Z.succ (Z.log2 m)) by lia. exact L2. }
  rewrite Hl.
  set (q := Z.max (Z.log2 m + e - 52) (-1074)).
  assert (Hk : (0 <= e - q)%Z) by (unfold q; lia).
  assert (Hs : (x * 2 ^ (- q) == inject_Z (m * 2 ^ (e - q)))%Q).
  { unfold x. rewrite inject_Z_mult, pow2_Z by lia.
    replace (e - q)%Z with (e + - q)%Z by lia. rewrite pow2_add. ring. }
  rewrite (rne_comp _ _ Hs), rne_Z.
  rewrite inject_Z_mult, pow2_Z by lia. unfold x.
  rewrite <- Qmult_assoc, <- pow2_add.
  replace (e - q + q)%Z with e by lia. reflexivity.
Qed.

Lemma binary64_0 (x : Q) : (x == 0)%Q -> binary64 x = 0%Q.
Proof.
  intros H. unfold binary64. rewrite (proj1 (Qeq_alt x 0) H). reflexivity.
Qed.

Lemma binary64_pos_lower (x : Q) :
  (0 < x)%Q -> (-1074 <= Qlog2 x - 52)%Z -> (2 ^ Qlog2 x <= binary64_pos x)%Q.
Proof.
  intros Hx Hn. destruct (Qlog2_spec x Hx) as [S1 S2].
  unfold binary64_pos.
  replace (Z.max (Qlog2 x - 52) (-1074)) with (Qlog2 x - 52)%Z by lia.
  set (q := (Qlog2 x - 52)%Z).
  pose proof (pow2_pos q) as Pq. pose proof (pow2_pos (- q)) as Pq'.
  assert (Hm : (inject_Z (2 ^ 52) <= x * 2 ^ (- q))%Q).
  { rewrite pow2_Z by lia. replace 52%Z with (Qlog2 x + - q)%Z by (unfold q; lia).
    rewrite pow2_add. apply Qmult_le_compat_r; [ exact S1 | apply Qlt_le_weak, Pq' ]. }
  apply rne_mono in Hm. rewrite rne_Z in Hm.
  assert (E : (2 ^ Qlog2 x == 2 ^ 52 * 2 ^ q)%Q).
  { rewrite <- pow2_add. replace (52 + q)%Z with (Qlog2 x) by (unfold q; lia).
    reflexivity. }
  rewrite E. apply Qmult_le_compat_r; [ | apply Qlt_le_weak, Pq ].
  rewrite <- (pow2_Z 52) by lia. rewrite <- Zle_Qle. exact Hm.
Qed.

Lemma binary64_pos_upper (x : Q) :
  (0 < x)%Q ->
  (binary64_pos x <= 2 ^ Z.max (Qlog2 x + 1) (Z.max (Qlog2 x - 52) (-1074)))%Q.
Proof.
  intros Hx. destruct (Qlog2_spec x Hx) as [S1 S2].
  unfold binary64_pos.
  set (q := Z.max (Qlog2 x - 52) (-1074)).
  pose proof (pow2_pos q) as Pq. pose proof (pow2_pos (- q)) as Pq'.
  destruct (Z.le_gt_cases q (Qlog2 x + 1)) as [Hc|Hc].
  - replace (Z.max (Qlog2 x + 1) q) with (Qlog2 x + 1)%Z by lia.
    assert (Hm : (x * 2 ^ (- q) <= inject_Z (2 ^ (Qlog2 x + 1 - q)))%Q).
    { rewrite pow2_Z by lia.
      replace (Qlog2 x + 1 - q)%Z with (Qlog2 x + 1 + - q)%Z by lia.
      rewrite pow2_add. apply Qmult_le_compat_r; [ | apply Qlt_le_weak, Pq' ].
      apply Qlt_le_weak, S2. }
    apply rne_mono in Hm. rewrite rne_Z in Hm.
    assert (E : (2 ^ (Qlog2 x + 1) == 2 ^ (Qlog2 x + 1 - q) * 2 ^ q)%Q).
    { rewrite <- pow2_add. replace (Qlog2 x + 1 - q + q)%Z with (Qlog2 x + 1)%Z by lia.
      reflexivity. }
    rewrite E. apply Qmult_le_compat_r; [ | apply Qlt_le_weak, Pq ].
    rewrite <- (pow2_Z (Qlog2 x + 1 - q)) by lia. rewrite <- Zle_Qle. exact Hm.
  - replace (Z.max (Qlog2 x + 1) q) with q by lia.
    assert (Hm : (x * 2 ^ (- q) <= inject_Z 1)%Q).
    { assert (H1 : (2 ^ (Qlog2 x + 1) <= 2 ^ q)%Q) by (apply pow2_le; lia).
      assert (H2 : (2 ^ q * 2 ^ (- q) == 1)%Q).
      { rewrite <- pow2_add. replace (q + - q)%Z with 0%Z by lia. reflexivity. }
      change (inject_Z 1) with 1%Q. nra. }
    apply rne_mono in Hm. rewrite rne_Z in Hm.
    assert (Hm' : (inject_Z (rne (x * 2 ^ (- q))) <= 1)%Q)
      by (change 1%Q with (inject_Z 1); rewrite <- Zle_Qle; exact Hm).
    nra.
Qed.

Lemma binary64_pos_mono (x y : Q) :
  (0 < x)%Q -> (x <= y)%Q -> (binary64_pos x <= binary64_pos y)%Q.
Proof.
  intros Hx Hxy.
  assert (Hy : (0 < y)%Q) by nra.
  pose proof (Qlog2_mono x y Hx Hxy) as Hl.
  destruct (Z.eq_dec (Z.max (Qlog2 x - 52) (-1074)) (Z.max (Qlog2 y - 52) (-1074)))
    as [E|E].
  - unfold binary64_pos. rewrite <- E.
    set (q := Z.max (Qlog2 x - 52) (-1074)).
    pose proof (pow2_pos q) as Pq. pose proof (pow2_pos (- q)) as Pq'.
    apply Qmult_le_compat_r; [ | apply Qlt_le_weak, Pq ].
    rewrite <- Zle_Qle. apply rne_mono.
    apply Qmult_le_compat_r; [ exact Hxy | apply Qlt_le_weak, Pq' ].
  - pose proof (binary64_pos_upper x Hx) as U.
    pose proof (binary64_pos_lower y Hy ltac:(lia)) as L.
    assert (H : (2 ^ Z.max (Qlog2 x + 1) (Z.max (Qlog2 x - 52) (-1074))
                 <= 2 ^ Qlog2 y)%Q) by (apply pow2_le; lia).
    nra.
Qed.

Lemma binary64_pos_nonneg (x : Q) : (0 < x)%Q -> (0 <= binary64_pos x)%Q.
Proof.
  intros Hx. unfold binary64_pos.
  set (q := Z.max (Qlog2 x - 52) (-1074)).
  pose proof (pow2_pos q) as Pq. pose proof (pow2_pos (- q)) as Pq'.
  assert (Hm : (inject_Z 0 <= x * 2 ^ (- q))%Q) by (change (inject_Z 0) with 0%Q; nra).
  apply rne_mono in Hm. rewrite rne_Z in Hm.
  assert (0 <= inject_Z (rne (x * 2 ^ (- q))))%Q
    by (rewrite <- (Zle_Qle 0); exact Hm).
  nra.
Qed.

Lemma binary64_mono (x y : Q) :
  (0 <= x)%Q -> (x <= y)%Q -> (binary64 x <= binary64 y)%Q.
Proof.
  intros Hx Hxy. unfold binary64.
  destruct (Qcompare_spec x 0) as [X|X|X]; [ | exfalso; nra | ];
  destruct (Qcompare_spec y 0) as [Y|Y|Y]; try (exfalso; nra).
  - apply Qle_refl.
  - apply binary64_pos_nonneg. exact Y.
  - apply binary64_pos_mono; assumption.
Qed.

(** A number that is a binary64 value is not changed by the rounding. *)
Lemma binary64_repr (x : Q) (m e : Z) :
  (0 < m < 2 ^ 53)%Z -> (-1074 <= e)%Z -> (x == inject_Z m * 2 ^ e)%Q ->
  (binary64 x == x)%Q.
Proof.
  intros Hm He Hx.
  pose proof (binary64_exact m e Hm He) as Hex.
  assert (H0 : (0 <= inject_Z m * 2 ^ e)%Q).
  { apply Qmult_le_0_compat; [ | apply Qlt_le_weak, pow2_pos ].
    rewrite <- (Zle_Qle 0). lia. }
  apply Qle_antisym.
  - rewrite Hx at 2. rewrite <- Hex. apply binary64_mono.
    + rewrite Hx. exact H0.
    + rewrite Hx. apply Qle_refl.
  - rewrite Hx at 1. rewrite <- Hex. apply binary64_mono.
    + exact H0.
    + rewrite Hx. apply Qle_refl.
Qed.

(** A natural number below 2^53, and a quarter of it, are binary64 values. *)
Lemma binary64_quarters (k : Z) :
  (0 < k < 2 ^ 53)%Z -> (binary64 ((1 # 4) * inject_Z k) == (1 # 4) * inject_Z k)%Q.
Proof.
  intros Hk. apply (binary64_repr _ k (-2)); [ exact Hk | lia | ].
  change (2 ^ (-2))%Q with (1 # 4). ring.
Qed.

(** Cases in which [binary64] can be compared with the floats of the
    kernel: the draw and the size at which rounding decides the result of
    [truncate], a draw next to 1, a tie, and a subnormal result. *)
Example binary64_agrees_with_the_machine :
  let r1 := (of_uint63 (Uint63.of_Z 3752999689475413)
             / of_uint63 (Uint63.of_Z 4503599627370496))%float in
  let r2 := (of_uint63 (Uint63.of_Z 9007199254740991)
             / of_uint63 (Uint63.of_Z 9007199254740992))%float in
  Qeq_bool (Q_of_float ((0.25 + r1 * 0.5) * 3)%float)
    (binary64 (binary64 ((1 # 4) + binary64 (Q_of_float r1 * (1 # 2))) * 3)) = true /\
  Qeq_bool (Q_of_float ((0.25 + r2 * 0.5) * 4)%float)
    (binary64 (binary64 ((1 # 4) + binary64 (Q_of_float r2 * (1 # 2))) * 4)) = true /\
  Qeq_bool (Q_of_float (of_uint63 (Uint63.of_Z 9007199254740993)))
    (binary64 9007199254740993) = true /\
  Qeq_bool (Q_of_float (1 / 3)%float) (binary64 (1 # 3)) = true /\
  Qeq_bool (Q_of_float (Z.ldexp 3 (-1074) / 2)%float)
    (binary64 (3 * 2 ^ (-1074) / 2)) = true.
Proof. cbv zeta. repeat split; vm_compute; reflexivity. Qed.

End Binary64Facts.

(** ** Paths and the renaming of a directory *)

Lemma append_cons (x : Ascii.ascii) (a b : string) :
  String.append (String x a) b = String x (String.append a b).
Proof. reflexivity. Qed.

Lemma append_assoc (a b c : string) :
  String.append (String.append a b) c = String.append a (String.append b c).
Proof.
  induction a as [|x a IH]; [ reflexivity | ].
  rewrite !append_cons, IH. reflexivity.
Qed.

Lemma length_append (a b : string) :
  String.length (String.append a b) = String.length a + String.length b.
Proof.
  induction a as [|x a IH]; [ reflexivity | ].
  rewrite append_cons. cbn [String.length]. rewrite IH. reflexivity.
Qed.

Lemma append_cancel (a b c : string) :
  String.append a b = String.append a c -> b = c.
Proof.
  induction a as [|x a IH]; [ auto | ].
  rewrite !append_cons. intros [= H]. auto.
Qed.

Lemma strip_prefix_Some (pre s t : string) :
  strip_prefix pre s = Some t <-> s = String.append pre t.
Proof.
  revert s. induction pre as [|a pre IH]; intros s;
    [ | rewrite append_cons ]; cbn [strip_prefix].
  - split; [ intros [= ->]; reflexivity | intros ->; reflexivity ].
  - destruct s as [|b s]; [ split; discriminate | ].
    destruct (Ascii.eqb_spec a b) as [->|Hne].
    + rewrite IH. split; [ intros ->; reflexivity | intros [= ->]; reflexivity ].
    + split; [ discriminate | intros [= -> _]; destruct Hne; reflexivity ].
Qed.

Lemma below_iff (d p : string) :
  below d p = true <-> exists t, p = String.append d (String.append "/" t).
Proof.
  unfold below.
  destruct (strip_prefix (String.append d "/") p) as [t|] eqn:E.
  - apply strip_prefix_Some in E. rewrite append_assoc in E.
    split; [ eauto | reflexivity ].
  - split; [ discriminate | ]. intros [t Ht].
    assert (H : strip_prefix (String.append d "/") p = Some t)
      by (apply strip_prefix_Some; rewrite append_assoc; exact Ht).
    congruence.
Qed.

Lemma not_below_itself (d t : string) : d <> String.append d (String.append "/" t).
Proof.
  intros H. apply (f_equal String.length) in H.
  rewrite !length_append in H. cbn in H. lia.
Qed.

Lemma relocate_old (old new : string) : relocate old new old = new.
Proof. unfold relocate. rewrite String.eqb_refl. reflexivity. Qed.

Lemma relocate_below (old new t : string) :
  relocate old new (String.append old (String.append "/" t))
  = String.append new (String.append "/" t).
Proof.
  unfold relocate.
  destruct (String.eqb_spec (String.append old (String.append "/" t)) old) as [E|_].
  - destruct (not_below_itself old t). symmetry. exact E.
  - assert (H : strip_prefix (String.append old "/")
                  (String.append old (String.append "/" t)) = Some t)
      by (apply strip_prefix_Some; rewrite append_assoc; reflexivity).
    rewrite H. reflexivity.
Qed.

Lemma relocate_other (old new p : string) :
  p <> old -> below old p = false -> relocate old new p = p.
Proof.
  intros Hne Hb. unfold relocate, below in *.
  destruct (String.eqb_spec p old) as [E|_]; [ contradiction | ].
  destruct (strip_prefix (String.append old "/") p); [ discriminate | reflexivity ].
Qed.

(** A path is the old one, below it, or elsewhere. *)
Lemma relocate_cases (old new p : string) :
  (p = old /\ relocate old new p = new) \/
  (exists t, p = String.append old (String.append "/" t) /\
             relocate old new p = String.append new (String.append "/" t)) \/
  (p <> old /\ below old p = false /\ relocate old new p = p).
Proof.
  destruct (String.eqb_spec p old) as [->|Hne].
  - left. split; [ reflexivity | apply relocate_old ].
  - destruct (below old p) eqn:Hb.
    + right. left. apply below_iff in Hb. destruct Hb as [t ->].
      exists t. split; [ reflexivity | apply relocate_below ].
    + right. right. split; [ exact Hne | ].
      split; [ reflexivity | apply relocate_other; assumption ].
Qed.

(** On paths that are neither the new one nor below it, [relocate] is
    one to one. *)
Lemma relocate_inj (old new p p' : string) :
  p <> new -> below new p = false ->
  p' <> new -> below new p' = false ->
  relocate old new p = relocate old new p' -> p = p'.
Proof.
  intros Hp Hbp Hp' Hbp' E.
  assert (Hnb : forall q t, below new q = false ->
                            q <> String.append new (String.append "/" t)).
  { intros q t Hq ->.
    assert (below new (String.append new (String.append "/" t)) = true)
      by (apply below_iff; eauto).
    congruence. }
  destruct (relocate_cases old new p) as [[-> R]|[(t & -> & R)|(N & B & R)]];
  destruct (relocate_cases old new p') as [[-> R']|[(t' & -> & R')|(N' & B' & R')]];
    rewrite ?R, ?R' in E.
  - reflexivity.
  - destruct (not_below_itself new t'). exact E.
  - destruct Hp'. symmetry. exact E.
  - destruct (not_below_itself new t). symmetry. exact E.
  - apply append_cancel, append_cancel in E. subst. reflexivity.
  - destruct (Hnb p' t Hbp'). symmetry. exact E.
  - destruct Hp. exact E.
  - destruct (Hnb p t' Hbp). exact E.
  - exact E.
Qed.

(** What is at a path after the move, when nothing was at the new path or
    below it. *)
Lemma move_tree_lookup (old new : string) (f : gmap string node) (k : string)
    (v : node) :
  (forall p o, f !! p = Some o -> p <> new /\ below new p = false) ->
  move_tree old new f !! k = Some v <->
  exists p, relocate old new p = k /\ f !! p = Some v.
Proof.
  intros Hfree. unfold move_tree.
  assert (Hnd : NoDup ((prod_map (relocate old new) id <$> map_to_list f).*1)).
  { rewrite <- list_fmap_compose.
    assert (Hc : (fst ∘ prod_map (relocate old new) id
                  : string * node -> string)
                 = relocate old new ∘ fst) by reflexivity.
    rewrite Hc, list_fmap_compose.
    apply NoDup_fmap_2_strong; [ | apply NoDup_fst_map_to_list ].
    intros p p' Hp Hp' E.
    apply list_elem_of_fmap in Hp as ([p1 o1] & -> & H1).
    apply list_elem_of_fmap in Hp' as ([p2 o2] & -> & H2).
    apply elem_of_map_to_list in H1, H2. cbn in *.
    destruct (Hfree _ _ H1), (Hfree _ _ H2).
    apply (relocate_inj old new); assumption. }
  rewrite <- (elem_of_list_to_map _ _ _ Hnd), list_elem_of_fmap.
  split.
  - intros ([p o] & [= -> ->] & H). apply elem_of_map_to_list in H. eauto.
  - intros (p & <- & H). exists (p, v).
    split; [ reflexivity | apply elem_of_map_to_list; exact H ].
Qed.

Lemma move_tree_new (old new : string) (f : gmap string node) (o : node) :
  (forall p o, f !! p = Some o -> p <> new /\ below new p = false) ->
  f !! old = Some o -> move_tree old new f !! new = Some o.
Proof.
  intros Hfree Ho. apply move_tree_lookup; [ exact Hfree | ].
  exists old. split; [ apply relocate_old | exact Ho ].
Qed.

Lemma move_tree_None (old new : string) (f : gmap string node) (k : string) :
  (forall p o, f !! p = Some o -> p <> new /\ below new p = false) ->
  (forall p o, f !! p = Some o -> relocate old new p <> k) ->
  move_tree old new f !! k = None.
Proof.
  intros Hfree Hk. destruct (move_tree old new f !! k) as [v|] eqn:E; [ | reflexivity ].
  apply move_tree_lookup in E as (p & Hp & Hv); [ | exact Hfree ].
  destruct (Hk p v Hv Hp).
Qed.

Lemma move_tree_old (old new : string) (f : gmap string node) :
  (forall p o, f !! p = Some o -> p <> new /\ below new p = false) ->
  old <> new -> move_tree old new f !! old = None.
Proof.
  intros Hfree Hne. apply move_tree_None; [ exact Hfree | ].
  intros p o Hp E. destruct (Hfree p o Hp) as [Hn Hb].
  destruct (relocate_cases old new p) as [[-> R]|[(t & -> & R)|(N & B & R)]];
    rewrite R in E.
  - destruct Hne. symmetry. exact E.
  - assert (B : below new (String.append old (String.append "/" t)) = true).
    { apply below_iff. exists (String.append t (String.append "/" t)).
      rewrite <- E, append_assoc. reflexivity. }
    congruence.
  - destruct N. exact E.
Qed.

Lemma move_tree_other (old new : string) (f : gmap string node) (q : string) :
  (forall p o, f !! p = Some o -> p <> new /\ below new p = false) ->
  q <> old -> below old q = false -> q <> new -> below new q = false ->
  move_tree old new f !! q = f !! q.
Proof.
  intros Hfree Hq1 Hq2 Hq3 Hq4. apply option_eq. intros v.
  rewrite move_tree_lookup by exact Hfree. split.
  - intros (p & Hp & Hv).
    destruct (relocate_cases old new p) as [[-> R]|[(t & -> & R)|(N & B & R)]];
      rewrite R in Hp.
    + destruct Hq3. symmetry. exact Hp.
    + assert (below new q = true) by (apply below_iff; eauto). congruence.
    + subst q. exact Hv.
  - intros Hv. exists q. split; [ apply relocate_other; assumption | exact Hv ].
Qed.

Lemma move_tree_below (old new : string) (f : gmap string node) (t : string) :
  (forall p o, f !! p = Some o -> p <> new /\ below new p = false) ->
  move_tree old new f !! String.append new (String.append "/" t)
  = f !! String.append old (String.append "/" t).
Proof.
  intros Hfree. apply option_eq. intros v.
  rewrite move_tree_lookup by exact Hfree. split.
  - intros (p & Hp & Hv).
    destruct (relocate_cases old new p) as [[-> R]|[(t' & -> & R)|(N & B & R)]];
      rewrite R in Hp.
    + destruct (not_below_itself new t). exact Hp.
    + apply append_cancel, append_cancel in Hp. subst t'. exact Hv.
    + destruct (Hfree p v Hv) as [_ Hb]. subst p.
      assert (below new (String.append new (String.append "/" t)) = true)
        by (apply below_iff; eauto).
      congruence.
  - intros Hv. exists (String.append old (String.append "/" t)).
    split; [ apply relocate_below | exact Hv ].
Qed.

(** ** [Deno.rename] *)

Lemma set_fs_id (s : State) : set_fs (fs s) s = s.
Proof. destruct s. reflexivity. Qed.

(** A [Deno.rename] that returns was given an object to move and two paths
    it accepts. *)
Lemma Deno_rename_returns (old new : string) (s s' : State) :
  Deno_rename old new s = (Return tt, s') ->
  exists o, fs s !! old = Some o /\ rename_accepts (fs s) o old new.
Proof.
  unfold Deno_rename, bind, get, modify, ret, throw. cbn.
  destruct (fs s !! old) as [[c|]|] eqn:Ho; [ | | discriminate ].
  - intros H. exists (File c). split; [ reflexivity | ]. cbn.
    destruct (fs s !! new) as [[c'|]|]; congruence.
  - intros H. exists Directory. split; [ reflexivity | ]. cbn.
    destruct (String.eqb_spec old new) as [E|E]; [ left; exact E | right ].
    destruct (fs s !! new) as [[c'|]|] eqn:Hn; [ discriminate | | ].
    all: destruct (below old new); [ discriminate | ].
    all: destruct (decide (map_Forall (fun p _ => below new p = false) (fs s)))
      as [Hall|Hall]; [ | discriminate ].
    all: split; [ congruence | split; [ reflexivity | exact Hall ] ].
Qed.

(** What [Deno.rename] does when it accepts the paths: the object is at the
    new path, the old path is free, what was below a directory is below its
    new path, and every other path holds what it held. *)
Lemma Deno_rename_accepted (old new : string) (s : State) (o : node) :
  fs s !! old = Some o -> rename_accepts (fs s) o old new ->
  exists f',
    Deno_rename old new s = (Return tt, set_fs f' s) /\
    f' !! new = Some o /\
    (new <> old -> f' !! old = None) /\
    (forall q, q <> old -> q <> new -> below old q = false ->
               below new q = false -> f' !! q = fs s !! q) /\
    (o = Directory ->
     forall t, f' !! String.append new (String.append "/" t)
               = fs s !! String.append old (String.append "/" t)) /\
    (forall c, o = File c -> f' = <[new := File c]> (delete old (fs s))).
Proof.
  intros Ho Hacc.
  unfold Deno_rename, bind, get, modify, ret, throw. cbn. rewrite Ho.
  destruct o as [c|]; cbn in Hacc.
  - exists (<[new := File c]> (delete old (fs s))). split.
    { destruct (fs s !! new) as [[c'|]|]; congruence. }
    split; [ apply lookup_insert_eq | ].
    split; [ intros Hne; rewrite lookup_insert_ne by assumption;
             apply lookup_delete_eq | ].
    split; [ intros q Hq1 Hq2 _ _; rewrite lookup_insert_ne by congruence;
             apply lookup_delete_ne; congruence | ].
    split; [ discriminate | intros c' [= <-]; reflexivity ].
  - destruct (String.eqb_spec old new) as [E|E].
    { subst new. exists (fs s). rewrite set_fs_id.
      split; [ reflexivity | ]. split; [ exact Ho | ].
      split; [ congruence | ]. split; [ reflexivity | ].
      split; [ reflexivity | discriminate ]. }
    destruct Hacc as [Hacc|(Hnf & Hb & Hall)]; [ contradiction | ].
    rewrite Hb.
    destruct (decide (map_Forall (fun p _ => below new p = false) (fs s)))
      as [_|Hno]; [ | contradiction ].
    assert (Hfree : forall p v, delete new (fs s) !! p = Some v ->
                                p <> new /\ below new p = false).
    { intros p v Hp. apply lookup_delete_Some in Hp as [Hne Hp].
      split; [ congruence | exact (Hall p v Hp) ]. }
    exists (move_tree old new (delete new (fs s))). split.
    { destruct (fs s !! new) as [[c'|]|] eqn:Hn;
        [ destruct (Hnf c'); reflexivity | reflexivity | reflexivity ]. }
    split.
    { apply move_tree_new; [ exact Hfree | ].
      rewrite lookup_delete_ne by congruence. exact Ho. }
    split; [ intros _; apply move_tree_old; assumption | ].
    split.
    { intros q Hq1 Hq2 Hq3 Hq4.
      rewrite move_tree_other by assumption.
      apply lookup_delete_ne. congruence. }
    split; [ | discriminate ].
    intros _ t. rewrite move_tree_below by exact Hfree.
    apply lookup_delete_ne. intros ->.
    assert (below old (String.append old (String.append "/" t)) = true)
      by (apply below_iff; eauto).
    congruence.
Qed.

(** So [Deno.rename] returns exactly when it accepts the paths. *)
Lemma Deno_rename_returns_iff (old new : string) (s : State) (o : node) :
  fs s !! old = Some o ->
  (exists s', Deno_rename old new s = (Return tt, s')) <->
  rename_accepts (fs s) o old new.
Proof.
  intros Ho. split.
  - intros (s' & H). destruct (Deno_rename_returns _ _ _ _ H) as (o' & Ho' & Hacc).
    rewrite Ho in Ho'. injection Ho' as <-. exact Hacc.
  - intros Hacc. destruct (Deno_rename_accepted old new s o Ho Hacc) as (f' & H & _).
    eauto.
Qed.

(** With paths it does not accept, [Deno.rename] throws the error of the
    operating system and leaves the state as it was. *)
Lemma Deno_rename_refused (old new : string) (s : State) (o : node) :
  fs s !! old = Some o -> ~ rename_accepts (fs s) o old new ->
  exists msg, Deno_rename old new s = (Throw (OsError msg), s).
Proof.
  intros Ho Hacc.
  unfold Deno_rename, bind, get, modify, ret, throw. cbn. rewrite Ho.
  destruct o as [c|]; cbn in Hacc.
  - destruct (fs s !! new) as [[c'|]|] eqn:Hn.
    + destruct Hacc. discriminate.
    + eexists. reflexivity.
    + destruct Hacc. discriminate.
  - destruct (String.eqb_spec old new) as [E|E].
    { destruct Hacc. left. exact E. }
    destruct (fs s !! new) as [[c'|]|] eqn:Hn; [ eexists; reflexivity | | ].
    all: destruct (below old new) eqn:Hb; [ eexists; reflexivity | ].
    all: destruct (decide (map_Forall (fun p _ => below new p = false) (fs s)))
      as [Hall|Hall]; [ | eexists; reflexivity ].
    all: destruct Hacc; right.
    all: split; [ congruence | split; [ reflexivity | exact Hall ] ].
Qed.

(** Either [rename] draws the identifier, calls [Deno.rename] and, when that
    returns, assigns the new path. *)
Lemma rename_eq (rt : Runtime) (dir : bool) (s : State) :
  rename rt dir s
  = let newPath := path_join rt (path_dirname rt (target_path dir s))
                     (uuid_v4 rt (uuid_drawn s)) in
    match Deno_rename (target_path dir s) newPath
            (set_uuid_drawn (S (uuid_drawn s)) s) with
    | (Return _, s1) =>
        (Return tt,
         if dir then set_dirData {| dir_path := newPath |} s1
         else set_fileData (with_path newPath (fileData s1)) s1)
    | (Throw e, s1) => (Throw e, s1)
    end.
Proof. destruct dir; reflexivity. Qed.

Section WriterFacts.

Variable rt : Runtime.

Lemma Deno_copy_step src dest pos b size s :
  Deno_copy rt src dest pos b size s =
  match read rt src b size s with
  | (Throw e, s') => (Throw e, s')
  | (Return (None, _, size'), s') => (Return size', s')
  | (Return (Some result, b', size'), s') =>
      Deno_copy rt src dest (pos + result) b' size'
        (set_fs (fs_write dest pos (take result b') (fs s')) s')
  end.
Proof.
  rewrite Deno_copy_equation_1. unfold inspect.
  assert (G : forall r (e : read rt src b size s = r),
    Deno_copy_unfold_clause_1 rt src dest pos b size s (exist _ r e) =
    match r with
    | (Throw e, s') => (Throw e, s')
    | (Return (None, _, size'), s') => (Return size', s')
    | (Return (Some result, b', size'), s') =>
      Deno_copy rt src dest (pos + result) b' size'
        (set_fs (fs_write dest pos (take result b') (fs s')) s')
    end).
  { intros [[[[[o|] b'] sz']|e'] s'] e; reflexivity. }
  apply G.
Qed.


(** *** What a call of [getValues] does *)

Lemma set_crypto_drawn_id s : set_crypto_drawn (crypto_drawn s) s = s.
Proof. destruct s; reflexivity. Qed.

Lemma call_fill g p s :
  call rt g p s =
  (Return (fst (fill rt g p (crypto_drawn s))),
   set_crypto_drawn (snd (fill rt g p (crypto_drawn s))) s).
Proof.
  destruct g as [[]|[]]; cbn; rewrite ?set_crypto_drawn_id; try reflexivity.
Qed.

Lemma fill_length g p k : length (fst (fill rt g p k)) = length p.
Proof.
  destruct g as [[]|[]]; cbn; unfold Uint8Array_fill;
    rewrite ?length_replicate, ?length_map, ?length_seq; reflexivity.
Qed.

Lemma written_length fuel g b size k :
  size <= fuel -> 0 < length b ->
  length (fst (written rt fuel g b size k)) = size.
Proof.
  revert b size k. induction fuel as [|fuel IH]; intros b size k Hf Hb; cbn.
  - lia.
  - destruct (Nat.eqb_spec (Nat.min (length b) size) 0) as [E|E]; cbn.
    + lia.
    + rewrite length_app, length_take, fill_length, IH; rewrite ?fill_length; lia.
Qed.

Lemma write_at_nil pos c : pos <= length c -> write_at pos [] c = c.
Proof.
  intros H. unfold write_at. cbn.
  replace (pos - length c) with 0 by lia. cbn.
  rewrite Nat.add_0_r. apply take_drop.
Qed.

Lemma write_at_inside pos w c :
  pos <= length c ->
  write_at pos w c = take pos c ++ w ++ drop (pos + length w) c.
Proof.
  intros H. unfold write_at. replace (pos - length c) with 0 by lia.
  reflexivity.
Qed.

Lemma write_at_app pos w1 w2 c :
  pos <= length c ->
  write_at (pos + length w1) w2 (write_at pos w1 c) = write_at pos (w1 ++ w2) c.
Proof.
  intros H.
  rewrite (write_at_inside pos w1), (write_at_inside pos (w1 ++ w2)) by assumption.
  assert (Hl : length (take pos c) = pos) by (rewrite length_take; lia).
  rewrite write_at_inside
    by (rewrite !length_app, Hl; lia).
  rewrite (app_assoc (take pos c) w1).
  rewrite take_app_length' by (rewrite length_app; lia).
  rewrite drop_app_ge by (rewrite length_app; lia).
  rewrite length_app, Hl.
  replace (pos + length w1 + length w2 - (pos + length w1)) with (length w2) by lia.
  rewrite drop_drop, length_app.
  rewrite <- !app_assoc.
  replace (pos + length w1 + length w2) with (pos + (length w1 + length w2)) by lia.
  reflexivity.
Qed.

Lemma after_copy_nil s dest pos c :
  fs s !! dest = Some (File c) -> pos <= length c ->
  after_copy s dest pos c [] (crypto_drawn s) = s.
Proof.
  intros Hf Hp. unfold after_copy. rewrite write_at_nil by assumption.
  rewrite insert_id by assumption.
  destruct s as [f [p n [m] v] d k r u bg bag]; cbn.
  destruct v; cbn; unfold with_checksum, Sha256_update; cbn;
    rewrite ?app_nil_r; reflexivity.
Qed.

Lemma Deno_copy_spec fuel g dest pos b size s c :
  size <= fuel -> 0 < length b ->
  fs s !! dest = Some (File c) -> pos <= length c ->
  Deno_copy rt g dest pos b size s =
  (Return 0,
   after_copy s dest pos c (fst (written rt fuel g b size (crypto_drawn s)))
     (snd (written rt fuel g b size (crypto_drawn s)))).
Proof.
  revert b size pos s c.
  induction fuel as [|fuel IH]; intros b size pos s c Hfuel Hb Hfs Hpos;
    rewrite Deno_copy_step; unfold read.
  - replace size with 0 by lia. rewrite Nat.min_0_r. cbn.
    rewrite after_copy_nil by assumption. reflexivity.
  - cbn [written].
    destruct (Nat.eqb_spec (Nat.min (length b) size) 0) as [E|E].
    + cbn. rewrite after_copy_nil by assumption.
      replace size with 0 by lia. reflexivity.
    + unfold bind. rewrite call_fill.
      destruct (fill rt g b (crypto_drawn s)) as [b' k'] eqn:Hfill.
      pose proof (fill_length g b (crypto_drawn s)) as Hlen.
      rewrite Hfill in Hlen. cbn [fst snd] in *.
      set (n := Nat.min (length b) size) in *.
      assert (Hn : length (take n b') = n) by (rewrite length_take; lia).
      cbn [get].
      destruct (verifyChecksum (fileData (set_crypto_drawn k' s))) eqn:Hv;
        cbn [modify ret].
      all: erewrite (IH b' (size - n) (pos + n) _ (write_at pos (take n b') c));
        [ | lia | lia | cbn; unfold fs_write; rewrite Hfs; apply lookup_insert_eq
          | rewrite write_at_inside, !length_app, length_take by lia; lia ].
      all: f_equal; cbn [crypto_drawn set_fs set_fileData set_crypto_drawn].
      all: destruct (written rt fuel g b' (size - n) k') as [w k''];
        cbn [fst snd]; unfold after_copy; cbn; unfold fs_write; rewrite Hfs.
      all: cbn in Hv; rewrite Hv; cbn.
      all: rewrite insert_insert_eq.
      all: rewrite <- Hn at 1; rewrite write_at_app by assumption.
      all: try reflexivity.
      unfold Sha256_update, with_checksum; cbn. rewrite <- app_assoc.
      reflexivity.
Qed.

(** *** [Deno.iter] and [verify] *)

Lemma Deno_iter_concat c h :
  foldl Sha256_update h (Deno_iter rt c) = {| message := message h ++ c |}.
Proof.
  remember (length c) as n eqn:Hn. revert c h Hn.
  induction n as [n IH] using lt_wf_ind. intros c h ->.
  destruct c as [|x l].
  - rewrite Deno_iter_equation_1. cbn. rewrite app_nil_r. destruct h; reflexivity.
  - rewrite Deno_iter_equation_2. cbn [foldl].
    erewrite IH; [ | | reflexivity ].
    + unfold Sha256_update. cbn [message]. rewrite <- app_assoc, take_drop.
      reflexivity.
    + rewrite length_drop. cbn [length]. lia.
Qed.

Lemma FileWriter_verify_frame s : snd (FileWriter_verify rt s) = s.
Proof.
  unfold FileWriter_verify, Deno_open, bind, get.
  destruct (fs s !! path (fileData s)) as [[c|]|]; cbn; try reflexivity.
  match goal with |- context [negb ?b] => destruct b end; reflexivity.
Qed.

Lemma FileWriter_verify_file s c :
  fs s !! path (fileData s) = Some (File c) ->
  FileWriter_verify rt s =
  (Return (if String.eqb (Sha256_hex rt (checksum (fileData s)))
                         (Sha256_hex rt {| message := c |})
           then None else Some (Error "Invalid checksum")), s).
Proof.
  intros Hf. unfold FileWriter_verify, Deno_open, bind, get.
  rewrite Hf. cbn. rewrite Hf, Deno_iter_concat. cbn.
  match goal with |- context [negb ?b] => destruct b end; reflexivity.
Qed.

(** *** [write] *)

Lemma this_getValues_eq this s :
  this_getValues this s = (Return (method_of this s), s).
Proof. destruct this; reflexivity. Qed.

Lemma stream_length g n k : length (fst (stream rt g n k)) = n.
Proof.
  apply written_length; [ lia | ].
  unfold Uint8Array_new. rewrite length_replicate. lia.
Qed.

Lemma FileWriter_write_file this s c :
  fs s !! path (fileData s) = Some (File c) ->
  FileWriter_write rt this s =
  (Return tt,
   after_write s c
     (fst (stream rt (method_of this s) (size (fileData s)) (crypto_drawn s)))
     (snd (stream rt (method_of this s) (size (fileData s)) (crypto_drawn s)))).
Proof.
  intros Hf. unfold FileWriter_write.
  unfold bind at 1. cbn [get]. unfold bind at 1. unfold Deno_open at 1.
  unfold bind at 1. cbn [get]. rewrite Hf. cbn [ret].
  unfold bind at 1. rewrite this_getValues_eq.
  unfold bind at 1. cbn [get]. unfold bind at 1.
  erewrite (Deno_copy_spec (size (fileData s)));
    [ | lia | unfold Uint8Array_new; rewrite length_replicate; lia
      | exact Hf | lia ].
  fold (stream rt (method_of this s) (size (fileData s)) (crypto_drawn s)).
  destruct (stream rt (method_of this s) (size (fileData s)) (crypto_drawn s))
    as [w k] eqn:Hs. cbn [fst snd].
  unfold bind at 1. cbn [get].
  assert (Hv' : verifyChecksum (fileData (after_copy s (path (fileData s)) 0 c w k))
                = verifyChecksum (fileData s)).
  { unfold after_copy. cbn. destruct (verifyChecksum (fileData s)) eqn:E; cbn; auto. }
  rewrite Hv'.
  destruct (verifyChecksum (fileData s)) eqn:Hv.
  - unfold bind at 1. cbn [modify]. unfold bind at 1.
    match goal with |- context [FileWriter_verify rt ?st] =>
      pose proof (FileWriter_verify_frame st) as Hfr;
      destruct (FileWriter_verify rt st) as [[r|e] st'] eqn:Hver end;
      cbn in Hfr; subst.
    + cbn. f_equal. unfold after_copy, after_write, write_at. rewrite Hv.
      cbn. reflexivity.
    + exfalso. revert Hver. erewrite FileWriter_verify_file; [ discriminate | ].
      cbn. rewrite Hv. cbn. apply lookup_insert_eq.
  - cbn. f_equal. unfold after_copy, after_write, write_at.
    rewrite Hv. cbn. reflexivity.
Qed.

Lemma FileWriter_write_no_file this s :
  (forall c, fs s !! path (fileData s) <> Some (File c)) ->
  exists e, FileWriter_write rt this s = (Throw e, s).
Proof.
  intros Hf. unfold FileWriter_write, Deno_open, bind, get.
  destruct (fs s !! path (fileData s)) as [[c|]|] eqn:E.
  - destruct (Hf c); reflexivity.
  - eexists; reflexivity.
  - eexists; reflexivity.
Qed.

Lemma invoke_eq i s :
  invoke rt i s = FileWriter_write rt (class_of i) (prepared i s).
Proof. destruct i; reflexivity. Qed.

Lemma method_of_prepared i s :
  method_of (class_of i) (prepared i s) = method_for i.
Proof. destruct i; reflexivity. Qed.

Lemma prepared_frame i s :
  fs (prepared i s) = fs s /\ fileData (prepared i s) = fileData s /\
  crypto_drawn (prepared i s) = crypto_drawn s.
Proof. destruct i; auto. Qed.

Lemma invoke_file i s c :
  fs s !! path (fileData s) = Some (File c) ->
  invoke rt i s =
  (Return tt,
   after_write (prepared i s) c
     (fst (stream rt (method_for i) (size (fileData s)) (crypto_drawn s)))
     (snd (stream rt (method_for i) (size (fileData s)) (crypto_drawn s)))).
Proof.
  intros Hf. destruct (prepared_frame i s) as (E1 & E2 & E3).
  rewrite invoke_eq, (FileWriter_write_file _ _ c) by (rewrite E1, E2; exact Hf).
  rewrite method_of_prepared, E2, E3. reflexivity.
Qed.

Lemma invoke_no_file i s :
  (forall c, fs s !! path (fileData s) <> Some (File c)) ->
  exists e, invoke rt i s = (Throw e, prepared i s).
Proof.
  intros Hf. destruct (prepared_frame i s) as (E1 & E2 & E3).
  rewrite invoke_eq. apply FileWriter_write_no_file. rewrite E1, E2. exact Hf.
Qed.

(** *** Methods that fill the buffer the same way at every call *)

Lemma written_steady fuel g b size k (F : list Z) :
  (forall b' k', length b' = length F -> fill rt g b' k' = (F, k')) ->
  length b = length F -> 0 < length F -> size <= fuel ->
  snd (written rt fuel g b size k) = k /\
  forall i, i < size ->
    fst (written rt fuel g b size k) !! i = F !! (i mod length F).
Proof.
  intros HF. revert b size k.
  induction fuel as [|fuel IH]; intros b size k Hb HB Hfuel.
  - cbn. split; [ reflexivity | intros; lia ].
  - cbn [written]. rewrite Hb.
    destruct (Nat.eqb_spec (Nat.min (length F) size) 0) as [E|E].
    + cbn. split; [ reflexivity | intros; lia ].
    + rewrite (HF b k Hb). cbn [fst snd].
      destruct (IH F (size - Nat.min (length F) size) k eq_refl HB ltac:(lia))
        as [IHk IHi].
      split; [ exact IHk | ]. intros i Hi.
      destruct (Nat.lt_ge_cases i (Nat.min (length F) size)) as [Hlt|Hge].
      * rewrite lookup_app_l by (rewrite length_take; lia).
        rewrite lookup_take_lt by lia.
        rewrite Nat.mod_small by lia. reflexivity.
      * assert (Hmin : Nat.min (length F) size = length F) by lia.
        rewrite Hmin in *.
        rewrite lookup_app_r by (rewrite length_take; lia).
        rewrite length_take, Nat.min_id.
        rewrite IHi by lia.
        replace i with ((i - length F) + 1 * length F) at 2 by lia.
        rewrite Nat.Div0.mod_add. reflexivity.
Qed.

Lemma stream_steady g n k (F : list Z) :
  (forall b' k', length b' = length F -> fill rt g b' k' = (F, k')) ->
  length F = Pos.to_nat (bufSize rt) ->
  snd (stream rt g n k) = k /\
  forall i, i < n -> fst (stream rt g n k) !! i = F !! (i mod Pos.to_nat (bufSize rt)).
Proof.
  intros HF HB. unfold stream. rewrite <- HB.
  apply written_steady; try lia.
  - exact HF.
  - unfold Uint8Array_new. rewrite length_replicate. lia.
Qed.

Lemma stream_ByteArray a n k :
  snd (stream rt (Assigned (ByteArray_closure a (length a))) n k) = k /\
  forall i, i < n ->
    fst (stream rt (Assigned (ByteArray_closure a (length a))) n k) !! i =
    Some (byteArray_at a (length a) (i mod Pos.to_nat (bufSize rt))).
Proof.
  destruct (stream_steady (Assigned (ByteArray_closure a (length a))) n k
              (map (byteArray_at a (length a)) (seq 0 (Pos.to_nat (bufSize rt)))))
    as [Hk Hi].
  - intros b' k' Hb. cbn. rewrite Hb, length_map, length_seq. reflexivity.
  - rewrite length_map, length_seq. reflexivity.
  - split; [ exact Hk | ]. intros i Hlt. rewrite Hi by assumption.
    rewrite list_lookup_fmap, lookup_seq_lt
      by (apply Nat.mod_upper_bound; lia).
    reflexivity.
Qed.

Lemma byteArray_at_lookup a j :
  a <> [] ->
  Some (byteArray_at a (length a) j) = ToUint8 <$> a !! (j mod length a).
Proof.
  intros Ha. unfold byteArray_at.
  destruct a as [|x a']; [ congruence | ]. cbn [length].
  destruct (lookup_lt_is_Some_2 (x :: a') (j mod S (length a'))) as [v Hv].
  - apply Nat.mod_upper_bound. cbn. lia.
  - cbn [length] in Hv. rewrite Hv. reflexivity.
Qed.

End WriterFacts.

(** * The claims *)

Lemma mod_mod_divides (i B n : nat) :
  i < B \/ B mod n = 0 -> (i mod B) mod n = i mod n.
Proof.
  intros [Hlt | Hdiv].
  - rewrite (Nat.mod_small i B) by assumption. reflexivity.
  - destruct n as [|n']; [ cbn in *; subst; reflexivity | ].
    apply Nat.Div0.div_exact in Hdiv.
    rewrite (Nat.Div0.div_mod i B) at 2.
    rewrite Hdiv at 2.
    replace (S n' * (B / S n') * (i / B) + i mod B)
      with (i mod B + (B / S n' * (i / B)) * S n') by lia.
    rewrite Nat.Div0.mod_add. reflexivity.
Qed.

(** C1 (as amended). [ByteArray.write] with a non-empty pattern completes
    and byte [i] of the file, for every [i] below the size of the target, is
    [pattern[(i mod bufSize) mod length(pattern)]]: the pattern starts again
    at the head of every chunk of [bufSize] bytes.  That is
    [pattern[i mod length(pattern)]] inside the first chunk, and everywhere
    when the length of the pattern divides [bufSize]. *)
Theorem ByteArray_write_pattern (rt : Runtime) (byteArray : list Z)
    (s : State) (c : list Z) (i : nat) :
  byteArray <> [] ->
  fs s !! path (fileData s) = Some (File c) ->
  i < size (fileData s) ->
  exists s' c',
    ByteArray_write rt byteArray s = (Return tt, s') /\
    fs s' !! path (fileData s) = Some (File c') /\
    c' !! i =
      ToUint8 <$> byteArray !! ((i mod Pos.to_nat (bufSize rt)) mod length byteArray) /\
    (i < Pos.to_nat (bufSize rt) \/ Pos.to_nat (bufSize rt) mod length byteArray = 0 ->
     c' !! i = ToUint8 <$> byteArray !! (i mod length byteArray)).
Proof.
  intros Ha Hf Hi.
  pose proof (invoke_file rt (ByteArray_write_call byteArray) s c Hf) as Hw.
  cbn [invoke method_for] in Hw.
  destruct (stream_ByteArray rt byteArray (size (fileData s)) (crypto_drawn s))
    as [_ Hl].
  pose proof (stream_length rt (Assigned (ByteArray_closure byteArray (length byteArray)))
                (size (fileData s)) (crypto_drawn s)) as Hlen.
  eexists _, _. split; [ exact Hw | ]. split; [ cbn; apply lookup_insert_eq | ].
  assert (Hb : (fst (stream rt (Assigned (ByteArray_closure byteArray (length byteArray)))
                       (size (fileData s)) (crypto_drawn s))
                  ++ drop (length (fst (stream rt
                       (Assigned (ByteArray_closure byteArray (length byteArray)))
                       (size (fileData s)) (crypto_drawn s)))) c) !! i
               = ToUint8 <$> byteArray
                   !! ((i mod Pos.to_nat (bufSize rt)) mod length byteArray)).
  { rewrite lookup_app_l by lia.
    rewrite Hl by assumption. apply byteArray_at_lookup. assumption. }
  split; [ exact Hb | ].
  intros Hcase. rewrite Hb, (mod_mod_divides _ _ _ Hcase). reflexivity.
Qed.

Lemma ByteArray_write_pattern_witness :
  exists s' c',
    ByteArray_write deno4 [1; 2; 3]%Z (initial_state (one_file (replicate 7 9%Z)) (target 7 false))
      = (Return tt, s') /\
    fs s' !! "/d/a" = Some (File c') /\
    c' !! 5 = ToUint8 <$> [1; 2; 3]%Z !! ((5 mod 4) mod 3) /\
    (5 < 4 \/ 4 mod 3 = 0 -> c' !! 5 = ToUint8 <$> [1; 2; 3]%Z !! (5 mod 3)).
Proof.
  apply (ByteArray_write_pattern deno4 [1; 2; 3]%Z
           (initial_state (one_file (replicate 7 9%Z)) (target 7 false))
           (replicate 7 9%Z) 5).
  - discriminate.
  - reflexivity.
  - cbn. lia.
Defined.

(** C1 (as stated) fails: with Deno's chunks of 32768 bytes,
    [ByteArray([1,2,3])] on a file of 32769 bytes leaves 1 in byte 32768,
    where the claim has [pattern[32768 mod 3]], which is 3.  With chunks of 4
    bytes a 7-byte file is left as [1,2,3,1,1,2,3]. *)
Lemma ByteArray_write_restarts_per_chunk :
  content_at "/d/a"
    (snd (ByteArray_write deno [1; 2; 3]%Z
            (initial_state (one_file (replicate 32769 9%Z)) (target 32769 false))))
    !! 32768 = Some 1%Z /\
  [1; 2; 3]%Z !! (32768 mod 3) = Some 3%Z /\
  content_at "/d/a"
    (snd (ByteArray_write deno4 [1; 2; 3]%Z
            (initial_state (one_file (replicate 7 9%Z)) (target 7 false))))
    = [1; 2; 3; 1; 1; 2; 3]%Z.
Proof.
  split; [ | split; vm_compute; reflexivity ].
  set (s := initial_state (one_file (replicate 32769 9%Z)) (target 32769 false)).
  assert (Hf : fs s !! path (fileData s) = Some (File (replicate 32769 9%Z)))
    by apply lookup_singleton_eq.
  rewrite (invoke_file deno (ByteArray_write_call [1; 2; 3]%Z) s _ Hf : ByteArray_write _ _ _ = _).
  destruct (stream_ByteArray deno [1; 2; 3]%Z (size (fileData s)) (crypto_drawn s))
    as [_ Hl].
  pose proof (stream_length deno (method_for (ByteArray_write_call [1; 2; 3]%Z))
                (size (fileData s)) (crypto_drawn s)) as Hlen.
  assert (Hi : 32768 < size (fileData s))
    by (apply Nat.ltb_lt; vm_compute; reflexivity).
  unfold content_at, after_write. cbn [snd fs].
  change (path (fileData (prepared (ByteArray_write_call [1; 2; 3]%Z) s)))
    with "/d/a".
  rewrite lookup_insert_eq, lookup_app_l by (rewrite Hlen; exact Hi).
  cbn [method_for]. rewrite (Hl 32768 Hi). vm_compute. reflexivity.
Qed.

(** C2 (as amended). After a successful [write] the [size] field of the
    target record still holds the size it had before: [write] counts down a
    local copy of it, and that copy is 0 when the streaming ends. *)
Theorem write_keeps_size_field (rt : Runtime) (this : WriterClass)
    (s s' : State) :
  FileWriter_write rt this s = (Return tt, s') ->
  size (fileData s') = size (fileData s) /\
  fst (Deno_copy rt (method_of this s) (path (fileData s)) 0
         (Uint8Array_new (Pos.to_nat (bufSize rt))) (size (fileData s)) s)
    = Return 0.
Proof.
  intros Hw.
  destruct (fs s !! path (fileData s)) as [[c|]|] eqn:Hf.
  - rewrite (FileWriter_write_file rt this s c Hf) in Hw.
    injection Hw as <-. split.
    + cbn. destruct (verifyChecksum (fileData s)); reflexivity.
    + erewrite (Deno_copy_spec rt (size (fileData s)));
        [ reflexivity | lia | | exact Hf | lia ].
      unfold Uint8Array_new. rewrite length_replicate. lia.
  - destruct (FileWriter_write_no_file rt this s) as [e He];
      [ intros c; congruence | congruence ].
  - destruct (FileWriter_write_no_file rt this s) as [e He];
      [ intros c; congruence | congruence ].
Qed.

Lemma write_keeps_size_field_witness :
  exists s',
    FileWriter_write deno4 Zero (initial_state (one_file [9; 9; 9; 9; 9]%Z) (target 5 false))
      = (Return tt, s') /\
    size (fileData s') = 5 /\
    fst (Deno_copy deno4 (Static Zero) "/d/a" 0 (Uint8Array_new 4) 5
           (initial_state (one_file [9; 9; 9; 9; 9]%Z) (target 5 false)))
      = Return 0.
Proof.
  eexists. split; [ vm_compute; reflexivity | ].
  apply (write_keeps_size_field deno4 Zero
           (initial_state (one_file [9; 9; 9; 9; 9]%Z) (target 5 false))).
  vm_compute. reflexivity.
Defined.

(** C2 (as stated) fails: after [Zero.write] on a target of 5 bytes the
    field [size] of the record is 5, not 0. *)
Lemma write_leaves_size_5 :
  fst (Zero_write deno (initial_state (one_file [9; 9; 9; 9; 9]%Z) (target 5 false)))
    = Return tt /\
  size (fileData (snd (Zero_write deno
          (initial_state (one_file [9; 9; 9; 9; 9]%Z) (target 5 false))))) = 5 /\
  5 <> 0.
Proof.
  split; [ vm_compute; reflexivity | ].
  split; [ vm_compute; reflexivity | discriminate ].
Qed.

(** For every buffer size and every target larger than the buffer, the
    first bytes of the first two chunks are two successive draws of the random
    source: the general form of the evaluation below. *)
Lemma RandomByte_write_two_chunks (rt : Runtime) (s : State) (c : list Z) :
  fs s !! path (fileData s) = Some (File c) ->
  Pos.to_nat (bufSize rt) < size (fileData s) ->
  exists s' c',
    RandomByte_write rt s = (Return tt, s') /\
    fs s' !! path (fileData s) = Some (File c') /\
    c' !! 0 = Some (ToUint8 (crypto_byte rt (crypto_drawn s))) /\
    c' !! Pos.to_nat (bufSize rt)
      = Some (ToUint8 (crypto_byte rt (crypto_drawn s + 1))).
Proof.
  intros Hf Hn.
  pose proof (invoke_file rt RandomByte_write_call s c Hf) as Hw.
  cbn [invoke method_for] in Hw.
  pose proof (stream_length rt (Static RandomByte) (size (fileData s))
                (crypto_drawn s)) as Hlen.
  eexists _, _. split; [ exact Hw | ]. split; [ cbn; apply lookup_insert_eq | ].
  rewrite !lookup_app_l by lia.
  unfold stream. set (B := Pos.to_nat (bufSize rt)) in *.
  assert (HB : 0 < B) by (unfold B; lia).
  destruct (size (fileData s)) as [|[|n]] eqn:Hsz; [ lia | lia | ].
  set (N := S (S n)) in *.
  assert (ToUint8_idem : forall z, ToUint8 (ToUint8 z) = ToUint8 z)
    by (intros z; unfold ToUint8; apply Z.mod_mod; lia).
  change (written rt N (Static RandomByte) (Uint8Array_new B) N (crypto_drawn s))
    with (written rt (S (S n)) (Static RandomByte) (Uint8Array_new B) N (crypto_drawn s)).
  cbn [written fill fst snd].
  unfold Uint8Array_new, Uint8Array_fill. rewrite !length_replicate.
  replace (Nat.min B N) with B by lia.
  destruct (Nat.eqb_spec B 0) as [E|_]; [ lia | ].
  destruct (Nat.eqb_spec (Nat.min B (N - B)) 0) as [E|_]; [ lia | ].
  cbn [fst snd]. rewrite !ToUint8_idem. split.
  - rewrite lookup_app_l by (rewrite length_take, length_replicate; lia).
    rewrite lookup_take_lt, lookup_replicate_2 by lia. reflexivity.
  - rewrite lookup_app_r by (rewrite length_take, length_replicate; lia).
    rewrite length_take, length_replicate, Nat.min_id, Nat.sub_diag.
    rewrite lookup_app_l by (rewrite length_take, length_replicate; lia).
    rewrite lookup_take_lt, lookup_replicate_2 by lia. reflexivity.
Qed.

(** C3 fails on the code: [RandomByte.write] on a file of 32769 bytes draws
    two random bytes, one for each chunk of [Deno.copy], and byte 32768 of
    the file is the second one, not the first. *)
Theorem RandomByte_write_not_uniform :
  let r := RandomByte_write deno
             (initial_state (one_file (replicate 32769 9%Z)) (target 32769 false)) in
  fst r = Return tt /\
  crypto_drawn (snd r) = 2 /\
  content_at "/d/a" (snd r) !! 0 = Some 0%Z /\
  content_at "/d/a" (snd r) !! 32768 = Some 1%Z.
Proof.
  cbv zeta. repeat split; vm_compute; reflexivity.
Qed.

(** C4 fails on the code: with verification requested, a target of 2 bytes
    for a file of 3 bytes [7,7,7] is overwritten to [0,0,7]; the digest of
    the file differs from the digest of the two bytes written and [verify]
    returns its error, but the [write] that ran it returns normally with no
    value. *)
Theorem write_drops_the_verify_error :
  let s := snd (FileWriter_verifyNext
                  (initial_state (one_file [7; 7; 7]%Z) (target 2 false))) in
  let r := Zero_write deno s in
  fst r = Return tt /\
  verifyChecksum (fileData (snd r)) = false /\
  content_at "/d/a" (snd r) = [0; 0; 7]%Z /\
  message (checksum (fileData (snd r))) = [0; 0]%Z /\
  fst (FileWriter_verify deno (snd r)) = Return (Some (Error "Invalid checksum")).
Proof.
  cbv zeta. repeat split; vm_compute; reflexivity.
Qed.

(** C5 (as amended). [ByteArray.write] with an empty pattern does not
    fail: it completes and every byte of the target is overwritten with
    0x00. *)
Theorem ByteArray_write_empty_pattern (rt : Runtime) (s : State) (c : list Z) :
  fs s !! path (fileData s) = Some (File c) ->
  exists s' c',
    ByteArray_write rt [] s = (Return tt, s') /\
    fs s' !! path (fileData s) = Some (File c') /\
    forall i, i < size (fileData s) -> c' !! i = Some 0%Z.
Proof.
  intros Hf.
  pose proof (invoke_file rt (ByteArray_write_call []) s c Hf) as Hw.
  cbn [invoke method_for length] in Hw.
  destruct (stream_ByteArray rt [] (size (fileData s)) (crypto_drawn s))
    as [_ Hl]. cbn [length] in Hl.
  pose proof (stream_length rt (Assigned (ByteArray_closure [] 0))
                (size (fileData s)) (crypto_drawn s)) as Hlen.
  eexists _, _. split; [ exact Hw | ]. split.
  - cbn. apply lookup_insert_eq.
  - intros i Hi. rewrite lookup_app_l by lia. rewrite Hl by assumption.
    reflexivity.
Qed.

Lemma ByteArray_write_empty_pattern_witness :
  exists s' c',
    ByteArray_write deno4 [] (initial_state (one_file [7; 7; 7]%Z) (target 3 false))
      = (Return tt, s') /\
    fs s' !! "/d/a" = Some (File c') /\
    forall i, i < 3 -> c' !! i = Some 0%Z.
Proof.
  apply (ByteArray_write_empty_pattern deno4
           (initial_state (one_file [7; 7; 7]%Z) (target 3 false)) [7; 7; 7]%Z).
  reflexivity.
Defined.

(** C5 (as stated) fails: [ByteArray.write] with the empty pattern on a
    3-byte file returns normally and the file is [0,0,0]. *)
Lemma ByteArray_write_empty_does_not_fail :
  fst (ByteArray_write deno4 [] (initial_state (one_file [7; 7; 7]%Z) (target 3 false)))
    = Return tt /\
  content_at "/d/a"
    (snd (ByteArray_write deno4 [] (initial_state (one_file [7; 7; 7]%Z) (target 3 false))))
    = [0; 0; 0]%Z.
Proof.
  split; vm_compute; reflexivity.
Qed.

(** *** [truncate] *)

(** The factor [0.25 + Math.random() * 0.5], as computed: a draw in [0, 1)
    gives a number in [0.25, 0.75], both ends included after rounding. *)
Lemma truncate_ratio (u : Q) :
  (0 <= u)%Q -> (u < 1)%Q ->
  ((1 # 4) <= binary64 ((1 # 4) + binary64 (u * (1 # 2))))%Q /\
  (binary64 ((1 # 4) + binary64 (u * (1 # 2))) <= 3 # 4)%Q.
Proof.
  intros Hu0 Hu1.
  assert (Hq : (binary64 (1 # 4) == 1 # 4)%Q)
    by (apply (binary64_repr _ 1 (-2)); [ lia | lia | reflexivity ]).
  assert (Hh : (binary64 (1 # 2) == 1 # 2)%Q)
    by (apply (binary64_repr _ 1 (-1)); [ lia | lia | reflexivity ]).
  assert (Ht : (binary64 (3 # 4) == 3 # 4)%Q)
    by (apply (binary64_repr _ 3 (-2)); [ lia | lia | reflexivity ]).
  assert (H1lo : (0 <= binary64 (u * (1 # 2)))%Q).
  { pose proof (binary64_mono 0 (u * (1 # 2)) (Qle_refl 0)) as H.
    rewrite (binary64_0 0 (Qeq_refl 0)) in H. apply H. lra. }
  assert (H1hi : (binary64 (u * (1 # 2)) <= 1 # 2)%Q).
  { pose proof (binary64_mono (u * (1 # 2)) (1 # 2)) as H. lra. }
  split.
  - pose proof (binary64_mono (1 # 4) ((1 # 4) + binary64 (u * (1 # 2)))) as H.
    lra.
  - pose proof (binary64_mono ((1 # 4) + binary64 (u * (1 # 2))) (3 # 4)) as H.
    lra.
Qed.

Lemma truncate_newSize_bounds (u : Q) (n : nat) :
  (0 <= u)%Q -> (u < 1)%Q -> 0 < n -> (3 * Z.of_nat n < 2 ^ 53)%Z ->
  (Z.of_nat n / 4 <= truncate_newSize u n)%Z /\
  (4 * truncate_newSize u n <= 3 * Z.of_nat n)%Z.
Proof.
  intros Hu0 Hu1 Hn Hbig. unfold truncate_newSize.
  destruct (truncate_ratio u Hu0 Hu1) as [Hlo Hhi].
  set (t := binary64 ((1 # 4) + binary64 (u * (1 # 2)))) in *.
  set (N := inject_Z (Z.of_nat n)).
  assert (HN : (0 < N)%Q).
  { unfold N. rewrite <- (Zlt_Qlt 0). lia. }
  split.
  - replace (Z.of_nat n / 4)%Z with (Qfloor ((1 # 4) * N)).
    + apply Qfloor_resp_le.
      pose proof (binary64_quarters (Z.of_nat n) ltac:(lia)) as Hr. fold N in Hr.
      pose proof (binary64_mono ((1 # 4) * N) (t * N)) as H.
      apply Qle_trans with (binary64 ((1 # 4) * N)); [ lra | apply H; nra ].
    + unfold N, Qfloor, Qmult, inject_Z. cbn [Qnum Qden].
      rewrite Z.mul_1_l. reflexivity.
  - assert (Hr : (binary64 ((3 # 4) * N) == (3 # 4) * N)%Q).
    { apply (binary64_repr _ (3 * Z.of_nat n) (-2)); [ lia | lia | ].
      unfold N. rewrite inject_Z_mult. change (2 ^ (-2))%Q with (1 # 4).
      change (inject_Z 3) with (3 # 1). ring. }
    assert (Hle : (binary64 (t * N) <= (3 # 4) * N)%Q).
    { pose proof (binary64_mono (t * N) ((3 # 4) * N)) as H.
      apply Qle_trans with (binary64 ((3 # 4) * N)); [ apply H; nra | lra ]. }
    pose proof (Qfloor_le (binary64 (t * N))) as Hfl.
    set (F := Qfloor (binary64 (t * N))) in *.
    assert (Hlt : (inject_Z F <= (3 # 4) * N)%Q) by lra.
    unfold N, Qle, Qmult, inject_Z in Hlt. cbn [Qnum Qden] in Hlt.
    lia.
Qed.

(** Whatever the size, the new size is at most the old one. *)
Lemma truncate_newSize_range (u : Q) (n : nat) :
  (0 <= u)%Q -> (u < 1)%Q ->
  (0 <= truncate_newSize u n <= Z.of_nat n)%Z.
Proof.
  intros Hu0 Hu1. unfold truncate_newSize.
  destruct (truncate_ratio u Hu0 Hu1) as [Hlo Hhi].
  set (t := binary64 ((1 # 4) + binary64 (u * (1 # 2)))) in *.
  set (N := inject_Z (Z.of_nat n)).
  assert (HN : (0 <= N)%Q).
  { unfold N. rewrite <- (Zle_Qle 0). lia. }
  assert (H0 : (0 <= binary64 (t * N))%Q).
  { pose proof (binary64_mono 0 (t * N) (Qle_refl 0)) as H.
    rewrite (binary64_0 0 (Qeq_refl 0)) in H. apply H. nra. }
  split.
  - rewrite <- (Qfloor_Z 0%Z). apply Qfloor_resp_le. exact H0.
  - destruct (Z.eq_dec (Z.of_nat n) 0%Z) as [E|E].
    + assert (Hz : (t * N == 0)%Q) by (unfold N; rewrite E; ring).
      rewrite (binary64_0 _ Hz). change (Qfloor 0) with 0%Z. lia.
    + (* [y = m * 2^j] is a binary64 value between 3/4 of the size and the
         size: the size with all but its three leading bits cleared. *)
      set (j := Z.max 0 (Z.log2 (Z.of_nat n) - 2)%Z).
      set (m := (Z.of_nat n / 2 ^ j)%Z).
      assert (Hj : (0 <= j)%Z) by (unfold j; lia).
      assert (HP : (0 < 2 ^ j)%Z) by (apply Z.pow_pos_nonneg; lia).
      pose proof (Z.log2_spec (Z.of_nat n) ltac:(lia)) as [Hl1 Hl2].
      pose proof (Z.log2_nonneg (Z.of_nat n)) as Hl0.
      assert (Hj4 : (2 ^ j = 1 \/ 4 * 2 ^ j <= Z.of_nat n)%Z).
      { unfold j. destruct (Z.max_spec 0 (Z.log2 (Z.of_nat n) - 2)%Z) as [[H ->]|[_ ->]].
        - right. replace (Z.log2 (Z.of_nat n))
            with (2 + (Z.log2 (Z.of_nat n) - 2))%Z in Hl1 at 1 by lia.
          rewrite Z.pow_add_r in Hl1 by lia. lia.
        - left. reflexivity. }
      assert (Hj8 : (Z.of_nat n < 8 * 2 ^ j)%Z).
      { unfold j. destruct (Z.max_spec 0 (Z.log2 (Z.of_nat n) - 2)%Z) as [[H ->]|[H ->]].
        - replace (Z.succ (Z.log2 (Z.of_nat n)))
            with (3 + (Z.log2 (Z.of_nat n) - 2))%Z in Hl2 by lia.
          rewrite Z.pow_add_r in Hl2 by lia. lia.
        - assert (Hs : (Z.succ (Z.log2 (Z.of_nat n)) <= 3)%Z) by lia.
          pose proof (Z.pow_le_mono_r 2 _ 3 ltac:(lia) Hs) as Hp.
          change (2 ^ 0)%Z with 1%Z. lia. }
      pose proof (Z.div_mod (Z.of_nat n) (2 ^ j) ltac:(lia)) as Hdm.
      pose proof (Z.mod_pos_bound (Z.of_nat n) (2 ^ j) HP) as Hmod.
      fold m in Hdm.
      assert (Hm : (0 < m < 2 ^ 53)%Z).
      { split; [ nia | ]. change (2 ^ 53)%Z with 9007199254740992%Z. nia. }
      assert (Hy1 : (3 * Z.of_nat n <= 4 * (m * 2 ^ j))%Z).
      { destruct Hj4 as [H1|H4]; [ rewrite H1 in *; lia | nia ]. }
      assert (Hy2 : (m * 2 ^ j <= Z.of_nat n)%Z) by nia.
      set (y := (inject_Z m * 2 ^ j)%Q).
      assert (Hy : (y == inject_Z (m * 2 ^ j))%Q).
      { unfold y. rewrite inject_Z_mult, (pow2_Z j Hj). reflexivity. }
      assert (Hty : (t * N <= y)%Q).
      { rewrite Hy. apply Qle_trans with ((3 # 4) * N)%Q; [ nra | ].
        unfold N, Qle, Qmult, inject_Z. cbn [Qnum Qden]. lia. }
      assert (Hb : (binary64 (t * N) <= y)%Q).
      { pose proof (binary64_exact m j Hm ltac:(lia)) as Hex. fold y in Hex.
        pose proof (binary64_mono (t * N) y) as H.
        apply Qle_trans with (binary64 y); [ apply H; [ nra | exact Hty ] | lra ]. }
      rewrite <- (Qfloor_Z (Z.of_nat n)). apply Qfloor_resp_le.
      apply Qle_trans with y; [ exact Hb | ].
      rewrite Hy. rewrite <- Zle_Qle. exact Hy2.
Qed.

(** Two draws at which the rounding decides.  For the draw just below 5/6
    the factor is just below 2/3 and its product with 3 is [2 - 2^-53], which
    is rounded to 2: a 3-byte file keeps 2 bytes.  For the draw [1 - 2^-53]
    the factor is rounded to 0.75: a 4-byte file keeps 3 bytes. *)
Example truncate_newSize_rounds :
  truncate_newSize (3752999689475413 # 4503599627370496) 3 = 2%Z /\
  truncate_newSize (9007199254740991 # 9007199254740992) 4 = 3%Z.
Proof. split; vm_compute; reflexivity. Qed.

(** C6 (as amended). For a target of size > 0 (and below 2^53 / 3, so that
    three quarters of it is a binary64 number) on an existing file and a
    draw [u] of [Math.random] in [0, 1), that is [r = 0.25 + 0.5 u] in
    [0.25, 0.75] once rounded, [truncate] completes, sets the [size] field
    to [newSize = floor(r * size)] as computed in binary64, cuts the file to
    that length, and [floor(0.25 * size) <= newSize <= 0.75 * size]. *)
Theorem truncate_bounds (rt : Runtime) (s : State) (c : list Z) :
  fs s !! path (fileData s) = Some (File c) ->
  0 < size (fileData s) ->
  (3 * Z.of_nat (size (fileData s)) < 2 ^ 53)%Z ->
  (0 <= math_random rt (random_drawn s))%Q ->
  (math_random rt (random_drawn s) < 1)%Q ->
  exists s' c',
    FileProperties_truncate rt s = (Return tt, s') /\
    Z.of_nat (size (fileData s'))
      = truncate_newSize (math_random rt (random_drawn s)) (size (fileData s)) /\
    (Z.of_nat (size (fileData s)) / 4 <= Z.of_nat (size (fileData s')))%Z /\
    (4 * Z.of_nat (size (fileData s')) <= 3 * Z.of_nat (size (fileData s)))%Z /\
    fs s' !! path (fileData s) = Some (File c') /\
    length c' = size (fileData s').
Proof.
  intros Hf Hn Hbig Hu0 Hu1.
  destruct (truncate_newSize_bounds _ _ Hu0 Hu1 Hn Hbig) as [Hlo Hhi].
  set (newSize := truncate_newSize (math_random rt (random_drawn s))
                    (size (fileData s))) in *.
  assert (H0 : (0 <= newSize)%Z).
  { etransitivity; [ | exact Hlo ]. apply Z.div_pos; lia. }
  unfold FileProperties_truncate, Math_random, Deno_truncate, bind, get, modify, ret.
  cbn. rewrite Hf. fold newSize.
  eexists _, _. split; [ reflexivity | ]. cbn.
  rewrite Z2Nat.id by assumption.
  repeat split; try assumption.
  - apply lookup_insert_eq.
  - rewrite length_app, length_take, length_replicate. lia.
Qed.

Lemma truncate_bounds_witness :
  exists s' c',
    FileProperties_truncate deno
      (initial_state (one_file [1; 2; 3; 4; 5; 6; 7; 8]%Z) (target 8 false))
      = (Return tt, s') /\
    Z.of_nat (size (fileData s')) = truncate_newSize 0 8 /\
    (Z.of_nat 8 / 4 <= Z.of_nat (size (fileData s')))%Z /\
    (4 * Z.of_nat (size (fileData s')) <= 3 * Z.of_nat 8)%Z /\
    fs s' !! "/d/a" = Some (File c') /\
    length c' = size (fileData s').
Proof.
  apply (truncate_bounds deno
           (initial_state (one_file [1; 2; 3; 4; 5; 6; 7; 8]%Z) (target 8 false))
           [1; 2; 3; 4; 5; 6; 7; 8]%Z).
  - reflexivity.
  - cbn. lia.
  - vm_compute. reflexivity.
  - cbn. discriminate.
  - reflexivity.
Defined.

(** C6 (as stated) fails: a 1-byte file is truncated to 0 bytes, below
    0.25 * 1 (whatever the draw; here [Math.random()] is 0, [r] is 0.25). *)
Lemma truncate_below_a_quarter :
  size (fileData (snd (FileProperties_truncate deno
                         (initial_state (one_file [7]%Z) (target 1 false))))) = 0 /\
  ~ ((1 # 4) * inject_Z 1 <= inject_Z 0)%Q.
Proof.
  split; [ vm_compute; reflexivity | ].
  intros H. vm_compute in H. apply H. reflexivity.
Qed.

(** *** [rename] *)

(** C7 (as amended). For a target, file or directory, [rename] computes
    the name [join(dirname(path), uuid)] in the same parent directory and
    hands both paths to [Deno.rename] without looking at the destination.
    When the target is a file and the new path is not a directory, or the
    target is a directory and the new path is free or an empty directory
    (and not below the target), the call completes: the object of the target
    is at the new path (a file or an empty directory that was there is
    replaced, no conflict is reported), the old path is free, and [path] of
    the record is the new path. *)
Theorem rename_replaces_destination (rt : Runtime) (dir : bool) (s : State)
    (o : node) :
  fs s !! target_path dir s = Some o ->
  rename_accepts (fs s) o (target_path dir s)
    (path_join rt (path_dirname rt (target_path dir s))
       (uuid_v4 rt (uuid_drawn s))) ->
  exists s',
    rename rt dir s = (Return tt, s') /\
    target_path dir s'
      = path_join rt (path_dirname rt (target_path dir s))
          (uuid_v4 rt (uuid_drawn s)) /\
    fs s' !! target_path dir s' = Some o /\
    (target_path dir s' <> target_path dir s ->
     fs s' !! target_path dir s = None).
Proof.
  intros Ho Hacc. rewrite rename_eq. cbv zeta.
  set (newPath := path_join rt (path_dirname rt (target_path dir s))
                    (uuid_v4 rt (uuid_drawn s))) in *.
  destruct (Deno_rename_accepted (target_path dir s) newPath
              (set_uuid_drawn (S (uuid_drawn s)) s) o Ho Hacc)
    as (f' & Hr & Hnew & Hold & _).
  rewrite Hr. eexists. split; [ reflexivity | ].
  destruct dir; cbn; auto.
Qed.

Lemma rename_replaces_destination_witness :
  exists s',
    rename deno true (dir_state two_dirs "/d/a") = (Return tt, s') /\
    target_path true s' = "/d/u" /\
    fs s' !! target_path true s' = Some Directory /\
    (target_path true s' <> "/d/a" -> fs s' !! "/d/a" = None).
Proof.
  apply (rename_replaces_destination deno true (dir_state two_dirs "/d/a")
           Directory).
  - reflexivity.
  - right. split; [ intros c; vm_compute; discriminate | ].
    split; [ reflexivity | ].
    apply (bool_decide_unpack _). vm_compute. reflexivity.
Defined.

(** C7 (as stated) fails, for a file and for a directory.  With a file
    already at the new path [/d/u], [rename] of the file [/d/a] returns
    normally and the file that was at [/d/u] is replaced by the target's.
    With an empty directory at [/d/u], [rename] of the directory [/d/a]
    returns normally too, and [/d/u] is the target with its file [x]. *)
Lemma rename_overwrites_existing_file :
  (two_files !! "/d/u" = Some (File [2]%Z) /\
   fst (FileProperties_rename deno (initial_state two_files (target 1 false)))
     = Return tt /\
   fs (snd (FileProperties_rename deno (initial_state two_files (target 1 false))))
     !! "/d/u" = Some (File [1]%Z)) /\
  (two_dirs !! "/d/u" = Some Directory /\
   fst (DirectoryProperties_rename deno (dir_state two_dirs "/d/a")) = Return tt /\
   fs (snd (DirectoryProperties_rename deno (dir_state two_dirs "/d/a")))
     !! "/d/u/x" = Some (File [1]%Z) /\
   fs (snd (DirectoryProperties_rename deno (dir_state two_dirs "/d/a")))
     !! "/d/a/x" = None).
Proof.
  repeat split; vm_compute; reflexivity.
Qed.

(** *** Verification *)

Lemma FileWriter_init_file (p : string) (s0 s1 : State) :
  FileWriter_init p s0 = (Return tt, s1) ->
  exists c,
    fs s0 !! p = Some (File c) /\
    s1 = set_fileData {| path := p; size := length c; checksum := Sha256_new;
                         verifyChecksum := false |} s0.
Proof.
  unfold FileWriter_init, Deno_stat, bind, get, modify, ret, throw.
  destruct (fs s0 !! p) as [[c|]|]; cbn; intros [= <-]. eauto.
Qed.



(** C10. [verify] changes nothing: the target record (and the rest of the
    state) is after the call what it was before, so a second call gives
    the same result against the same stored digest. *)
Theorem verify_leaves_record (rt : Runtime) (s : State) :
  fileData (snd (FileWriter_verify rt s)) = fileData s /\
  snd (FileWriter_verify rt s) = s /\
  FileWriter_verify rt (snd (FileWriter_verify rt s)) = FileWriter_verify rt s.
Proof.
  rewrite FileWriter_verify_frame. auto.
Qed.

(** *** Residual state *)



Lemma written_any_position (rt : Runtime) fuel g b n k k' :
  (forall b' k1 k2, fst (fill rt g b' k1) = fst (fill rt g b' k2)) ->
  fst (written rt fuel g b n k) = fst (written rt fuel g b n k').
Proof.
  intros Hg. revert b n k k'.
  induction fuel as [|fuel IH]; intros b n k k'; cbn.
  - reflexivity.
  - destruct (Nat.eqb (Nat.min (length b) n) 0); cbn; [ reflexivity | ].
    rewrite (Hg b k k'). f_equal. apply IH.
Qed.

Lemma stream_any_position (rt : Runtime) (i : invocation) n k k' :
  draws_random i = false ->
  fst (stream rt (method_for i) n k) = fst (stream rt (method_for i) n k').
Proof.
  intros Hi. apply written_any_position. intros b' k1 k2.
  destruct i as [ | | | | | byte | a ]; try discriminate; reflexivity.
Qed.

Lemma invoke_then_invoke (rt : Runtime) (p k : invocation) (s : State)
    (c : list Z) :
  fs s !! path (fileData s) = Some (File c) ->
  fs (snd ((invoke rt p;; invoke rt k) s))
  = <[path (fileData s) :=
        File (fst (stream rt (method_for k) (size (fileData s))
                     (snd (stream rt (method_for p) (size (fileData s))
                             (crypto_drawn s))))
                ++ drop (size (fileData s)) c)]> (fs s).
Proof.
  intros Hf. unfold bind.
  rewrite (invoke_file rt p s c Hf).
  pose proof (stream_length rt (method_for p) (size (fileData s)) (crypto_drawn s))
    as Hlp.
  destruct (stream rt (method_for p) (size (fileData s)) (crypto_drawn s))
    as [wp kp]. cbn [fst snd] in *.
  set (s1 := after_write (prepared p s) c wp kp).
  destruct (prepared_frame p s) as (E1 & E2 & E3).
  assert (Hpath : path (fileData s1) = path (fileData s)).
  { unfold s1. cbn. rewrite E2. destruct (verifyChecksum (fileData s)); reflexivity. }
  assert (Hsize : size (fileData s1) = size (fileData s)).
  { unfold s1. cbn. rewrite E2. destruct (verifyChecksum (fileData s)); reflexivity. }
  assert (Hfs1 : fs s1 = <[path (fileData s) := File (wp ++ drop (length wp) c)]> (fs s)).
  { unfold s1. cbn. rewrite E1, E2. reflexivity. }
  assert (Hk1 : crypto_drawn s1 = kp) by reflexivity.
  assert (Hf1 : fs s1 !! path (fileData s1) = Some (File (wp ++ drop (length wp) c))).
  { rewrite Hpath, Hfs1. apply lookup_insert_eq. }
  rewrite (invoke_file rt k s1 _ Hf1).
  pose proof (stream_length rt (method_for k) (size (fileData s1)) (crypto_drawn s1))
    as Hlk.
  destruct (prepared_frame k s1) as (F1 & F2 & F3).
  cbn [snd after_write fs]. rewrite F1, F2, Hpath, Hfs1, insert_insert_eq.
  rewrite Hlk, Hsize, Hk1. f_equal. f_equal. f_equal.
  rewrite drop_app_ge by lia. rewrite Hlp, Nat.sub_diag, drop_0.
  reflexivity.
Qed.



(** * Further properties *)

(** ** What each pattern writes *)

Lemma written_from_fixed (rt : Runtime) fuel g (F : list Z) n k :
  (forall k', fill rt g F k' = (F, k')) ->
  0 < length F -> n <= fuel ->
  snd (written rt fuel g F n k) = k /\
  forall i, i < n -> fst (written rt fuel g F n k) !! i = F !! (i mod length F).
Proof.
  intros HF HB. revert n k.
  induction fuel as [|fuel IH]; intros n k Hfuel.
  - cbn. split; [ reflexivity | intros; lia ].
  - cbn [written].
    destruct (Nat.eqb_spec (Nat.min (length F) n) 0) as [E|E].
    + cbn. split; [ reflexivity | intros; lia ].
    + rewrite (HF k). cbn [fst snd].
      destruct (IH (n - Nat.min (length F) n) k ltac:(lia)) as [IHk IHi].
      split; [ exact IHk | ]. intros i Hi.
      destruct (Nat.lt_ge_cases i (Nat.min (length F) n)) as [Hlt|Hge].
      * rewrite lookup_app_l by (rewrite length_take; lia).
        rewrite lookup_take_lt by lia.
        rewrite Nat.mod_small by lia. reflexivity.
      * assert (Hmin : Nat.min (length F) n = length F) by lia.
        rewrite Hmin in *.
        rewrite lookup_app_r by (rewrite length_take; lia).
        rewrite length_take, Nat.min_id.
        rewrite IHi by lia.
        replace i with ((i - length F) + 1 * length F) at 2 by lia.
        rewrite Nat.Div0.mod_add. reflexivity.
Qed.

Lemma all_equal_replicate (w : list Z) (n : nat) (v : Z) :
  length w = n -> (forall i, i < n -> w !! i = Some v) -> w = replicate n v.
Proof.
  intros Hlen Hall. apply list_eq. intros i.
  destruct (Nat.lt_ge_cases i n) as [Hlt|Hge].
  - rewrite Hall by assumption. symmetry. apply lookup_replicate_2. assumption.
  - rewrite lookup_ge_None_2 by lia. symmetry.
    apply lookup_ge_None_2. rewrite length_replicate. assumption.
Qed.

(** A method that fills every buffer with the byte [v] writes [v]
    everywhere. *)
Lemma stream_of_constant (rt : Runtime) g (v : Z) n k :
  (forall b' k', fill rt g b' k' = (replicate (length b') v, k')) ->
  stream rt g n k = (replicate n v, k).
Proof.
  intros Hg.
  destruct (stream_steady rt g n k (replicate (Pos.to_nat (bufSize rt)) v))
    as [Hk Hi].
  - intros b' k' Hb. rewrite Hg, Hb, length_replicate. reflexivity.
  - apply length_replicate.
  - rewrite (surjective_pairing (stream rt g n k)), Hk. f_equal.
    apply all_equal_replicate; [ apply stream_length | ].
    intros i Hlt. rewrite Hi by assumption.
    apply lookup_replicate_2, Nat.mod_upper_bound. lia.
Qed.

Lemma invoke_constant (rt : Runtime) (i : invocation) (v : Z) (s : State)
    (c : list Z) :
  (forall b' k', fill rt (method_for i) b' k' = (replicate (length b') v, k')) ->
  fs s !! path (fileData s) = Some (File c) ->
  exists s',
    invoke rt i s = (Return tt, s') /\
    fs s' = <[path (fileData s) :=
                File (replicate (size (fileData s)) v ++ drop (size (fileData s)) c)]>
              (fs s) /\
    crypto_drawn s' = crypto_drawn s.
Proof.
  intros Hg Hf. rewrite (invoke_file rt i s c Hf).
  rewrite (stream_of_constant rt _ v _ _ Hg). cbn [fst snd].
  eexists. split; [ reflexivity | ].
  destruct (prepared_frame i s) as (E1 & E2 & E3).
  cbn [after_write fs crypto_drawn]. rewrite E1, E2, length_replicate. auto.
Qed.

(** X1. [Zero.write] on an existing file completes; afterwards the first
    [size] bytes of the file are 0x00, the bytes after them and every other
    path are as before, and no random byte has been drawn. *)
Theorem Zero_write_content (rt : Runtime) (s : State) (c : list Z) :
  fs s !! path (fileData s) = Some (File c) ->
  exists s',
    Zero_write rt s = (Return tt, s') /\
    fs s' = <[path (fileData s) :=
                File (replicate (size (fileData s)) 0%Z ++ drop (size (fileData s)) c)]>
              (fs s) /\
    crypto_drawn s' = crypto_drawn s.
Proof.
  intros Hf. apply (invoke_constant rt Zero_write_call 0%Z s c); [ | exact Hf ].
  intros b' k'. reflexivity.
Qed.

Lemma Zero_write_content_witness :
  exists s',
    Zero_write deno4 (initial_state (one_file [7; 8; 9; 10; 11; 12]%Z) (target 5 false))
      = (Return tt, s') /\
    fs s' = <["/d/a" := File (replicate 5 0%Z ++ drop 5 [7; 8; 9; 10; 11; 12]%Z)]>
              (one_file [7; 8; 9; 10; 11; 12]%Z) /\
    crypto_drawn s' = 0.
Proof.
  apply (Zero_write_content deno4
           (initial_state (one_file [7; 8; 9; 10; 11; 12]%Z) (target 5 false))).
  reflexivity.
Defined.

(** X2. [One.write] on an existing file completes and the first [size] bytes
    of the file are 0xFF: the value 0xFFFFFF given to [fill] is stored in
    the byte array modulo 256. *)
Theorem One_write_content (rt : Runtime) (s : State) (c : list Z) :
  fs s !! path (fileData s) = Some (File c) ->
  exists s',
    One_write rt s = (Return tt, s') /\
    fs s' = <[path (fileData s) :=
                File (replicate (size (fileData s)) 255%Z ++ drop (size (fileData s)) c)]>
              (fs s) /\
    crypto_drawn s' = crypto_drawn s.
Proof.
  intros Hf. apply (invoke_constant rt One_write_call 255%Z s c); [ | exact Hf ].
  intros b' k'. reflexivity.
Qed.

Lemma One_write_content_witness :
  exists s',
    One_write deno4 (initial_state (one_file [7; 8; 9]%Z) (target 3 false))
      = (Return tt, s') /\
    fs s' = <["/d/a" := File (replicate 3 255%Z ++ drop 3 [7; 8; 9]%Z)]>
              (one_file [7; 8; 9]%Z) /\
    crypto_drawn s' = 0.
Proof.
  apply (One_write_content deno4
           (initial_state (one_file [7; 8; 9]%Z) (target 3 false))).
  reflexivity.
Defined.

(** X3. [Byte.write(byte)] on an existing file completes and the first
    [size] bytes of the file are [byte mod 256], for every integer [byte],
    in or out of the range of a byte. *)
Theorem Byte_write_content (rt : Runtime) (byte : Z) (s : State) (c : list Z) :
  fs s !! path (fileData s) = Some (File c) ->
  exists s',
    Byte_write rt byte s = (Return tt, s') /\
    fs s' = <[path (fileData s) :=
                File (replicate (size (fileData s)) (byte mod 256)%Z
                        ++ drop (size (fileData s)) c)]>
              (fs s) /\
    crypto_drawn s' = crypto_drawn s.
Proof.
  intros Hf.
  apply (invoke_constant rt (Byte_write_call byte) (byte mod 256)%Z s c);
    [ | exact Hf ].
  intros b' k'. reflexivity.
Qed.

Lemma Byte_write_content_witness :
  exists s',
    Byte_write deno4 321 (initial_state (one_file (replicate 10 9%Z)) (target 10 false))
      = (Return tt, s') /\
    fs s' = <["/d/a" := File (replicate 10 (321 mod 256)%Z ++ drop 10 (replicate 10 9%Z))]>
              (one_file (replicate 10 9%Z)) /\
    crypto_drawn s' = 0.
Proof.
  apply (Byte_write_content deno4 321
           (initial_state (one_file (replicate 10 9%Z)) (target 10 false))).
  reflexivity.
Defined.

(** X4. [FileWriter.write] called on the base class, whose [getValues] does
    nothing, writes the fresh buffer of [Deno.copy] as it is: the first
    [size] bytes of the file are 0x00. *)
Theorem FileWriter_write_base_content (rt : Runtime) (s : State) (c : list Z) :
  fs s !! path (fileData s) = Some (File c) ->
  exists s',
    FileWriter_write rt FileWriter s = (Return tt, s') /\
    fs s' = <[path (fileData s) :=
                File (replicate (size (fileData s)) 0%Z ++ drop (size (fileData s)) c)]>
              (fs s).
Proof.
  intros Hf. rewrite (FileWriter_write_file rt FileWriter s c Hf).
  cbn [method_of].
  pose proof (stream_length rt (Static FileWriter) (size (fileData s))
                (crypto_drawn s)) as Hlen.
  destruct (written_from_fixed rt (size (fileData s)) (Static FileWriter)
              (Uint8Array_new (Pos.to_nat (bufSize rt))) (size (fileData s))
              (crypto_drawn s)) as [_ Hi].
  - intros k'. reflexivity.
  - unfold Uint8Array_new. rewrite length_replicate. lia.
  - lia.
  - fold (stream rt (Static FileWriter) (size (fileData s)) (crypto_drawn s)) in Hi.
    assert (Hw : fst (stream rt (Static FileWriter) (size (fileData s)) (crypto_drawn s))
                 = replicate (size (fileData s)) 0%Z).
    { apply all_equal_replicate; [ exact Hlen | ].
      intros i Hlt. rewrite Hi by assumption. unfold Uint8Array_new.
      rewrite length_replicate.
      apply lookup_replicate_2, Nat.mod_upper_bound. lia. }
    eexists. split; [ reflexivity | ].
    cbn [after_write fs]. rewrite Hw, length_replicate. reflexivity.
Qed.

Lemma FileWriter_write_base_content_witness :
  exists s',
    FileWriter_write deno4 FileWriter
      (initial_state (one_file [7; 8; 9]%Z) (target 3 false)) = (Return tt, s') /\
    fs s' = <["/d/a" := File (replicate 3 0%Z ++ drop 3 [7; 8; 9]%Z)]>
              (one_file [7; 8; 9]%Z).
Proof.
  apply (FileWriter_write_base_content deno4
           (initial_state (one_file [7; 8; 9]%Z) (target 3 false))).
  reflexivity.
Defined.

(** The number of chunks of at most [B] bytes in [n] bytes. *)
Lemma chunks_one (B n : nat) : 0 < n -> n <= B -> (n + B - 1) / B = 1.
Proof.
  intros Hn HB. symmetry. apply (Nat.div_unique _ _ _ (n - 1)); lia.
Qed.

Lemma chunks_more (B n : nat) :
  0 < B -> B < n -> (n + B - 1) / B = S ((n - B + B - 1) / B).
Proof.
  intros HB Hn.
  replace (n + B - 1) with ((n - B + B - 1) + 1 * B) by lia.
  rewrite Nat.div_add by lia. lia.
Qed.

Lemma written_Random (rt : Runtime) fuel b n k :
  n <= fuel -> 0 < length b ->
  snd (written rt fuel (Static Random) b n k)
    = k + length b * ((n + length b - 1) / length b) /\
  forall i, i < n ->
    fst (written rt fuel (Static Random) b n k) !! i
      = Some (ToUint8 (crypto_byte rt (k + i))).
Proof.
  revert b n k. induction fuel as [|fuel IH]; intros b n k Hfuel Hb.
  - replace n with 0 by lia. cbn [written fst snd].
    rewrite Nat.add_0_l, Nat.div_small by lia.
    split; [ lia | intros; lia ].
  - cbn [written].
    destruct (Nat.eqb_spec (Nat.min (length b) n) 0) as [E|E].
    + replace n with 0 by lia. cbn [fst snd].
      rewrite Nat.add_0_l, Nat.div_small by lia.
      split; [ lia | intros; lia ].
    + cbn [fill fst snd].
      set (b' := map (fun i => ToUint8 (crypto_byte rt i)) (seq k (length b))).
      assert (Hb' : length b' = length b)
        by (unfold b'; rewrite length_map, length_seq; reflexivity).
      destruct (IH b' (n - Nat.min (length b) n) (k + length b)
                  ltac:(lia) ltac:(lia)) as [IHk IHi].
      rewrite Hb' in IHk. split.
      * rewrite IHk.
        destruct (Nat.le_gt_cases n (length b)) as [Hle|Hgt].
        -- replace (n - Nat.min (length b) n) with 0 by lia.
           rewrite Nat.add_0_l, (Nat.div_small (length b - 1)) by lia.
           rewrite chunks_one by lia. lia.
        -- replace (Nat.min (length b) n) with (length b) by lia.
           rewrite (chunks_more (length b) n) by lia. lia.
      * intros i Hi.
        destruct (Nat.lt_ge_cases i (Nat.min (length b) n)) as [Hlt|Hge].
        -- rewrite lookup_app_l by (rewrite length_take; lia).
           rewrite lookup_take_lt by lia. unfold b'.
           rewrite list_lookup_fmap, lookup_seq_lt by lia. reflexivity.
        -- assert (Hmin : Nat.min (length b) n = length b) by lia.
           rewrite Hmin in *.
           rewrite lookup_app_r by (rewrite length_take; lia).
           rewrite length_take, Hb', Nat.min_id.
           rewrite IHi by lia. do 3 f_equal. lia.
Qed.

(** X5. [Random.write] on an existing file completes; byte [i] of the file,
    for every [i] below [size], is the [i]-th byte that [crypto] yields from
    the start of the write; and the write draws a whole buffer of [bufSize]
    random bytes for every chunk, also for a last chunk that is shorter. *)
Theorem Random_write_content (rt : Runtime) (s : State) (c : list Z) :
  fs s !! path (fileData s) = Some (File c) ->
  exists s' c',
    Random_write rt s = (Return tt, s') /\
    fs s' !! path (fileData s) = Some (File c') /\
    (forall i, i < size (fileData s) ->
       c' !! i = Some (ToUint8 (crypto_byte rt (crypto_drawn s + i)))) /\
    crypto_drawn s'
      = crypto_drawn s
        + Pos.to_nat (bufSize rt)
          * ((size (fileData s) + Pos.to_nat (bufSize rt) - 1) / Pos.to_nat (bufSize rt)).
Proof.
  intros Hf.
  pose proof (invoke_file rt Random_write_call s c Hf) as Hw.
  cbn [invoke method_for prepared] in Hw.
  pose proof (stream_length rt (Static Random) (size (fileData s)) (crypto_drawn s))
    as Hlen.
  destruct (written_Random rt (size (fileData s))
              (Uint8Array_new (Pos.to_nat (bufSize rt))) (size (fileData s))
              (crypto_drawn s)) as [Hk Hi].
  - lia.
  - unfold Uint8Array_new. rewrite length_replicate. lia.
  - unfold Uint8Array_new in Hk. rewrite length_replicate in Hk.
    fold (Uint8Array_new (Pos.to_nat (bufSize rt))) in Hk.
    fold (stream rt (Static Random) (size (fileData s)) (crypto_drawn s)) in Hk, Hi.
    eexists _, _. split; [ exact Hw | ].
    split; [ cbn; apply lookup_insert_eq | ]. split.
    + intros i Hlt. rewrite lookup_app_l by lia. apply Hi. assumption.
    + cbn [after_write crypto_drawn]. exact Hk.
Qed.

Lemma Random_write_content_witness :
  exists s' c',
    Random_write deno4 (initial_state (one_file (replicate 6 9%Z)) (target 6 false))
      = (Return tt, s') /\
    fs s' !! "/d/a" = Some (File c') /\
    (forall i, i < 6 -> c' !! i = Some (ToUint8 (Z.of_nat (0 + i)))) /\
    crypto_drawn s' = 0 + 4 * ((6 + 4 - 1) / 4).
Proof.
  apply (Random_write_content deno4
           (initial_state (one_file (replicate 6 9%Z)) (target 6 false))
           (replicate 6 9%Z)).
  reflexivity.
Defined.

Lemma ToUint8_idempotent (z : Z) : ToUint8 (ToUint8 z) = ToUint8 z.
Proof. unfold ToUint8. apply Z.mod_mod. lia. Qed.

Lemma written_RandomByte (rt : Runtime) fuel b n k :
  n <= fuel -> 0 < length b ->
  snd (written rt fuel (Static RandomByte) b n k)
    = k + (n + length b - 1) / length b /\
  forall i, i < n ->
    fst (written rt fuel (Static RandomByte) b n k) !! i
      = Some (ToUint8 (crypto_byte rt (k + i / length b))).
Proof.
  revert b n k. induction fuel as [|fuel IH]; intros b n k Hfuel Hb.
  - replace n with 0 by lia. cbn [written fst snd].
    rewrite Nat.add_0_l, Nat.div_small by lia.
    split; [ lia | intros; lia ].
  - cbn [written].
    destruct (Nat.eqb_spec (Nat.min (length b) n) 0) as [E|E].
    + replace n with 0 by lia. cbn [fst snd].
      rewrite Nat.add_0_l, Nat.div_small by lia.
      split; [ lia | intros; lia ].
    + cbn [fill fst snd]. unfold Uint8Array_fill. rewrite ToUint8_idempotent.
      set (b' := replicate (length b) (ToUint8 (crypto_byte rt k))).
      assert (Hb' : length b' = length b) by apply length_replicate.
      destruct (IH b' (n - Nat.min (length b) n) (k + 1)
                  ltac:(lia) ltac:(lia)) as [IHk IHi].
      rewrite Hb' in IHk, IHi. split.
      * rewrite IHk.
        destruct (Nat.le_gt_cases n (length b)) as [Hle|Hgt].
        -- replace (n - Nat.min (length b) n) with 0 by lia.
           rewrite Nat.add_0_l, (Nat.div_small (length b - 1)) by lia.
           rewrite chunks_one by lia. lia.
        -- replace (Nat.min (length b) n) with (length b) by lia.
           rewrite (chunks_more (length b) n) by lia. lia.
      * intros i Hi.
        destruct (Nat.lt_ge_cases i (Nat.min (length b) n)) as [Hlt|Hge].
        -- rewrite lookup_app_l by (rewrite length_take; lia).
           rewrite lookup_take_lt by lia. unfold b'.
           rewrite lookup_replicate_2 by lia.
           rewrite Nat.div_small, Nat.add_0_r by lia. reflexivity.
        -- assert (Hmin : Nat.min (length b) n = length b) by lia.
           rewrite Hmin in *.
           rewrite lookup_app_r by (rewrite length_take; lia).
           rewrite length_take, Hb', Nat.min_id.
           rewrite IHi by lia. do 3 f_equal.
           replace i with ((i - length b) + 1 * length b) at 2 by lia.
           rewrite Nat.div_add by lia. lia.
Qed.

(** X6. [RandomByte.write] on an existing file completes; it draws one
    random byte for every chunk of [bufSize] bytes, and byte [i] of the
    file, for every [i] below [size], is the draw of the chunk it lies in,
    the [(i / bufSize)]-th of the write: the bytes of one chunk are equal to
    one another. *)
Theorem RandomByte_write_content (rt : Runtime) (s : State) (c : list Z) :
  fs s !! path (fileData s) = Some (File c) ->
  exists s' c',
    RandomByte_write rt s = (Return tt, s') /\
    fs s' !! path (fileData s) = Some (File c') /\
    (forall i, i < size (fileData s) ->
       c' !! i = Some (ToUint8 (crypto_byte rt
                         (crypto_drawn s + i / Pos.to_nat (bufSize rt))))) /\
    crypto_drawn s'
      = crypto_drawn s
        + (size (fileData s) + Pos.to_nat (bufSize rt) - 1) / Pos.to_nat (bufSize rt).
Proof.
  intros Hf.
  pose proof (invoke_file rt RandomByte_write_call s c Hf) as Hw.
  cbn [invoke method_for prepared] in Hw.
  pose proof (stream_length rt (Static RandomByte) (size (fileData s))
                (crypto_drawn s)) as Hlen.
  destruct (written_RandomByte rt (size (fileData s))
              (Uint8Array_new (Pos.to_nat (bufSize rt))) (size (fileData s))
              (crypto_drawn s)) as [Hk Hi].
  - lia.
  - unfold Uint8Array_new. rewrite length_replicate. lia.
  - unfold Uint8Array_new in Hk, Hi. rewrite length_replicate in Hk, Hi.
    fold (Uint8Array_new (Pos.to_nat (bufSize rt))) in Hk, Hi.
    fold (stream rt (Static RandomByte) (size (fileData s)) (crypto_drawn s))
      in Hk, Hi.
    eexists _, _. split; [ exact Hw | ].
    split; [ cbn; apply lookup_insert_eq | ]. split.
    + intros i Hlt. rewrite lookup_app_l by lia. apply Hi. assumption.
    + cbn [after_write crypto_drawn]. exact Hk.
Qed.

Lemma RandomByte_write_content_witness :
  exists s' c',
    RandomByte_write deno4 (initial_state (one_file (replicate 6 9%Z)) (target 6 false))
      = (Return tt, s') /\
    fs s' !! "/d/a" = Some (File c') /\
    (forall i, i < 6 -> c' !! i = Some (ToUint8 (Z.of_nat (0 + i / 4)))) /\
    crypto_drawn s' = 0 + (6 + 4 - 1) / 4.
Proof.
  apply (RandomByte_write_content deno4
           (initial_state (one_file (replicate 6 9%Z)) (target 6 false))
           (replicate 6 9%Z)).
  reflexivity.
Defined.

(** ** What a write leaves alone *)

(** X7. A write on an existing file, whatever the class and arguments,
    changes nothing but the first [size] bytes of the file of the target: the
    bytes from [size] on are as before, every other path is as before, and
    the file is never cut: it keeps its length, or grows to [size] bytes when
    the record says more than the file has. *)
Theorem write_touches_prefix_only (rt : Runtime) (i : invocation) (s : State)
    (c : list Z) :
  fs s !! path (fileData s) = Some (File c) ->
  exists s' c',
    invoke rt i s = (Return tt, s') /\
    fs s' = <[path (fileData s) := File c']> (fs s) /\
    length c' = Nat.max (length c) (size (fileData s)) /\
    drop (size (fileData s)) c' = drop (size (fileData s)) c.
Proof.
  intros Hf. rewrite (invoke_file rt i s c Hf).
  pose proof (stream_length rt (method_for i) (size (fileData s)) (crypto_drawn s))
    as Hlen.
  destruct (stream rt (method_for i) (size (fileData s)) (crypto_drawn s))
    as [w k]. cbn [fst snd] in *.
  destruct (prepared_frame i s) as (E1 & E2 & E3).
  eexists _, _. split; [ reflexivity | ].
  cbn [after_write fs]. rewrite E1, E2, Hlen.
  split; [ reflexivity | ]. split.
  - rewrite length_app, length_drop. lia.
  - rewrite drop_app_ge by lia. rewrite Hlen, Nat.sub_diag. reflexivity.
Qed.

Lemma write_touches_prefix_only_witness :
  exists s' c',
    invoke deno4 (ByteArray_write_call [1; 2; 3]%Z)
      (initial_state (one_file [7; 8; 9; 10; 11; 12]%Z) (target 5 false))
      = (Return tt, s') /\
    fs s' = <["/d/a" := File c']> (one_file [7; 8; 9; 10; 11; 12]%Z) /\
    length c' = Nat.max 6 5 /\
    drop 5 c' = drop 5 [7; 8; 9; 10; 11; 12]%Z.
Proof.
  apply (write_touches_prefix_only deno4 (ByteArray_write_call [1; 2; 3]%Z)
           (initial_state (one_file [7; 8; 9; 10; 11; 12]%Z) (target 5 false))
           [7; 8; 9; 10; 11; 12]%Z).
  reflexivity.
Defined.

(** X8. A write whose target path does not name an existing file throws
    before anything is written ([NotFound] when nothing is at the path): the
    file system and the target record are as before and no random byte is
    drawn.  [Byte.write] and [ByteArray.write] have by then installed their
    closure on the class. *)
Theorem write_without_file_throws (rt : Runtime) (i : invocation) (s : State) :
  (forall c, fs s !! path (fileData s) <> Some (File c)) ->
  exists e,
    invoke rt i s = (Throw e, prepared i s) /\
    fs (prepared i s) = fs s /\
    fileData (prepared i s) = fileData s /\
    crypto_drawn (prepared i s) = crypto_drawn s /\
    (fs s !! path (fileData s) = None -> e = NotFound).
Proof.
  intros Hf. destruct (prepared_frame i s) as (E1 & E2 & E3).
  rewrite invoke_eq. unfold FileWriter_write, Deno_open, bind, get.
  rewrite E1, E2.
  destruct (fs s !! path (fileData s)) as [[c|]|] eqn:E.
  - destruct (Hf c). reflexivity.
  - eexists. split; [ reflexivity | ]. repeat split; auto. discriminate.
  - eexists. split; [ reflexivity | ]. repeat split; auto.
Qed.

Lemma write_without_file_throws_witness :
  exists e,
    invoke deno4 (Byte_write_call 65) (initial_state ∅ (target 5 false))
      = (Throw e, prepared (Byte_write_call 65) (initial_state ∅ (target 5 false))) /\
    fs (prepared (Byte_write_call 65) (initial_state ∅ (target 5 false))) = ∅ /\
    fileData (prepared (Byte_write_call 65) (initial_state ∅ (target 5 false)))
      = target 5 false /\
    crypto_drawn (prepared (Byte_write_call 65) (initial_state ∅ (target 5 false))) = 0 /\
    ((∅ : gmap string node) !! "/d/a" = None -> e = NotFound).
Proof.
  apply (write_without_file_throws deno4 (Byte_write_call 65)
           (initial_state ∅ (target 5 false))).
  intros c. discriminate.
Defined.

(** X9. A write that returns has cleared the flag [verifyChecksum] and kept
    [path]; the checksum of the record is untouched when the flag was off, and
    has been fed exactly the bytes written, the first [size] bytes the file
    now holds, when the flag was on. *)
Theorem write_checksum_accounting (rt : Runtime) (i : invocation)
    (s s' : State) :
  invoke rt i s = (Return tt, s') ->
  verifyChecksum (fileData s') = false /\
  path (fileData s') = path (fileData s) /\
  exists c',
    fs s' !! path (fileData s) = Some (File c') /\
    message (checksum (fileData s'))
      = if verifyChecksum (fileData s)
        then message (checksum (fileData s)) ++ take (size (fileData s)) c'
        else message (checksum (fileData s)).
Proof.
  intros Hw.
  destruct (fs s !! path (fileData s)) as [[c|]|] eqn:Hf.
  - rewrite (invoke_file rt i s c Hf) in Hw. injection Hw as <-.
    pose proof (stream_length rt (method_for i) (size (fileData s)) (crypto_drawn s))
      as Hlen.
    destruct (stream rt (method_for i) (size (fileData s)) (crypto_drawn s))
      as [w k]. cbn [fst snd] in *.
    destruct (prepared_frame i s) as (E1 & E2 & E3).
    cbn [after_write fs fileData]. rewrite E1, E2.
    destruct (verifyChecksum (fileData s)) eqn:Hv; cbn.
    + repeat split. eexists. split; [ apply lookup_insert_eq | ].
      rewrite take_app_length' by lia. reflexivity.
    + rewrite Hv. repeat split. eexists. split; [ apply lookup_insert_eq | ].
      reflexivity.
  - destruct (invoke_no_file rt i s) as [e He]; [ intros c; congruence | congruence ].
  - destruct (invoke_no_file rt i s) as [e He]; [ intros c; congruence | congruence ].
Qed.

Lemma write_checksum_accounting_witness :
  let s := initial_state (one_file [7; 8; 9; 10; 11; 12]%Z) (target 5 true) in
  let s' := snd (invoke deno4 (ByteArray_write_call [1; 2; 3]%Z) s) in
  verifyChecksum (fileData s') = false /\
  path (fileData s') = "/d/a" /\
  exists c',
    fs s' !! "/d/a" = Some (File c') /\
    message (checksum (fileData s')) = [] ++ take 5 c'.
Proof.
  apply (write_checksum_accounting deno4 (ByteArray_write_call [1; 2; 3]%Z)
           (initial_state (one_file [7; 8; 9; 10; 11; 12]%Z) (target 5 true))).
  vm_compute. reflexivity.
Defined.

(** X10. The last write wins: when the second of two writes draws no random
    bytes, the file system after both is the file system after the second
    alone, whatever the first write was. *)
Theorem last_write_wins (rt : Runtime) (p k : invocation) (s : State) :
  draws_random k = false ->
  fs (snd ((invoke rt p;; invoke rt k) s)) = fs (snd (invoke rt k s)).
Proof.
  intros Hk.
  destruct (fs s !! path (fileData s)) as [[c|]|] eqn:Hf.
  - rewrite (invoke_then_invoke rt p k s c Hf), (invoke_file rt k s c Hf).
    rewrite (stream_any_position rt k _ _ (crypto_drawn s) Hk).
    destruct (prepared_frame k s) as (E1 & E2 & E3).
    cbn [snd after_write fs]. rewrite E1, E2, stream_length. reflexivity.
  - unfold bind.
    destruct (invoke_no_file rt p s) as [e1 ->]; [ intros c; congruence | ].
    destruct (invoke_no_file rt k s) as [e2 ->]; [ intros c; congruence | ].
    cbn. destruct (prepared_frame p s) as (-> & _).
    destruct (prepared_frame k s) as (-> & _). reflexivity.
  - unfold bind.
    destruct (invoke_no_file rt p s) as [e1 ->]; [ intros c; congruence | ].
    destruct (invoke_no_file rt k s) as [e2 ->]; [ intros c; congruence | ].
    cbn. destruct (prepared_frame p s) as (-> & _).
    destruct (prepared_frame k s) as (-> & _). reflexivity.
Qed.

Lemma last_write_wins_witness :
  fs (snd ((invoke deno4 Random_write_call;; invoke deno4 (Byte_write_call 65))
             (initial_state (one_file (replicate 10 9%Z)) (target 10 false))))
  = fs (snd (invoke deno4 (Byte_write_call 65)
               (initial_state (one_file (replicate 10 9%Z)) (target 10 false)))).
Proof.
  apply (last_write_wins deno4 Random_write_call (Byte_write_call 65)).
  reflexivity.
Defined.

(** ** Verification *)

(** X11. On an existing file [verify] compares the stored digest with the
    digest of the whole content of the file, whatever the chunks in which
    it is read back: it returns nothing when the two digests are equal and the
    error [Invalid checksum] when they differ, and in both cases changes
    nothing. *)
Theorem verify_compares_whole_file (rt : Runtime) (s : State) (c : list Z) :
  fs s !! path (fileData s) = Some (File c) ->
  (hex_digest rt (message (checksum (fileData s))) = hex_digest rt c ->
   FileWriter_verify rt s = (Return None, s)) /\
  (hex_digest rt (message (checksum (fileData s))) <> hex_digest rt c ->
   FileWriter_verify rt s = (Return (Some (Error "Invalid checksum")), s)).
Proof.
  intros Hf. rewrite (FileWriter_verify_file rt s c Hf). unfold Sha256_hex.
  cbn [message].
  destruct (String.eqb_spec (hex_digest rt (message (checksum (fileData s))))
              (hex_digest rt c)) as [E|E].
  - split; [ reflexivity | intros H; destruct (H E) ].
  - split; [ intros H; destruct (E H) | reflexivity ].
Qed.

Lemma verify_compares_whole_file_witness :
  let s := initial_state (one_file [1; 2; 3; 4; 5]%Z) (target 5 false) in
  (toy_digest [] = toy_digest [1; 2; 3; 4; 5]%Z ->
   FileWriter_verify deno4 s = (Return None, s)) /\
  (toy_digest [] <> toy_digest [1; 2; 3; 4; 5]%Z ->
   FileWriter_verify deno4 s = (Return (Some (Error "Invalid checksum")), s)).
Proof.
  apply (verify_compares_whole_file deno4
           (initial_state (one_file [1; 2; 3; 4; 5]%Z) (target 5 false))
           [1; 2; 3; 4; 5]%Z).
  reflexivity.
Defined.

(** The state after [verifyNext] and a write, for a record that does not
    say less than the file has. *)
Lemma verified_write (rt : Runtime) (i : invocation) (s : State) (c : list Z) :
  fs s !! path (fileData s) = Some (File c) ->
  length c <= size (fileData s) ->
  exists s' w,
    (FileWriter_verifyNext;; invoke rt i) s = (Return tt, s') /\
    fs s' = <[path (fileData s) := File w]> (fs s) /\
    length w = size (fileData s) /\
    path (fileData s') = path (fileData s) /\
    size (fileData s') = size (fileData s) /\
    checksum (fileData s') = {| message := w |}.
Proof.
  intros Hf Hlen.
  remember (snd (FileWriter_verifyNext s)) as s1 eqn:Hs1.
  assert (Hnext : FileWriter_verifyNext s = (Return tt, s1))
    by (subst; reflexivity).
  assert (Hfd : fileData s1 = {| path := path (fileData s); size := size (fileData s);
                                 checksum := Sha256_new; verifyChecksum := true |})
    by (subst; reflexivity).
  assert (Hfs : fs s1 = fs s) by (subst; reflexivity).
  clear Hs1.
  assert (Hf1 : fs s1 !! path (fileData s1) = Some (File c))
    by (rewrite Hfs, Hfd; exact Hf).
  pose proof (invoke_file rt i s1 c Hf1) as Hw.
  pose proof (stream_length rt (method_for i) (size (fileData s1))
                (crypto_drawn s1)) as Hl.
  destruct (stream rt (method_for i) (size (fileData s1)) (crypto_drawn s1))
    as [w k]. cbn [fst snd] in *.
  rewrite Hfd in Hl. cbn [size] in Hl.
  destruct (prepared_frame i s1) as (E1 & E2 & E3).
  exists (after_write (prepared i s1) c w k), w.
  split; [ unfold bind at 1; rewrite Hnext; exact Hw | ].
  unfold after_write. cbn [fs fileData]. rewrite E1, E2, Hfd, Hfs.
  cbn [verifyChecksum path size checksum].
  rewrite drop_ge, app_nil_r by lia. auto.
Qed.

(** X12. Tampering is detected: after [init], [verifyNext] and a write, if
    the file is then given another content whose digest differs from the
    digest of what was written, a call of [verify] returns the error
    [Invalid checksum]. *)
Theorem tampering_is_detected (rt : Runtime) (i : invocation) (p : string)
    (s0 s1 s2 : State) (c3 : list Z) :
  FileWriter_init p s0 = (Return tt, s1) ->
  (FileWriter_verifyNext;; invoke rt i) s1 = (Return tt, s2) ->
  hex_digest rt c3 <> hex_digest rt (content_at p s2) ->
  FileWriter_verify rt (set_fs (<[p := File c3]> (fs s2)) s2)
  = (Return (Some (Error "Invalid checksum")),
     set_fs (<[p := File c3]> (fs s2)) s2).
Proof.
  intros Hinit Hw Hne.
  destruct (FileWriter_init_file _ _ _ Hinit) as (c & Hf & ->).
  destruct (verified_write rt i
              (set_fileData {| path := p; size := length c; checksum := Sha256_new;
                               verifyChecksum := false |} s0) c)
    as (s' & w & Hw' & Hfs & Hl & Hp & Hsz & Hck).
  - exact Hf.
  - cbn. lia.
  - rewrite Hw' in Hw. injection Hw as <-.
    cbn [fileData set_fileData path] in Hp, Hfs.
    assert (Hc : content_at p s' = w).
    { unfold content_at. rewrite Hfs, lookup_insert_eq. reflexivity. }
    rewrite Hc in Hne.
    rewrite (FileWriter_verify_file rt _ c3)
      by (cbn; rewrite Hp; apply lookup_insert_eq).
    unfold Sha256_hex. cbn [fileData set_fs]. rewrite Hck. cbn [message].
    destruct (String.eqb_spec (hex_digest rt w) (hex_digest rt c3)) as [E|E];
      [ congruence | reflexivity ].
Qed.

Lemma tampering_is_detected_witness :
  let s0 := initial_state (one_file [7; 7; 7]%Z) (target 0 true) in
  let s1 := set_fileData (target 3 false) s0 in
  let s2 := snd ((FileWriter_verifyNext;; invoke deno4 Zero_write_call) s1) in
  FileWriter_verify deno4 (set_fs (<["/d/a" := File [0; 1; 0]%Z]> (fs s2)) s2)
  = (Return (Some (Error "Invalid checksum")),
     set_fs (<["/d/a" := File [0; 1; 0]%Z]> (fs s2)) s2).
Proof.
  apply (tampering_is_detected deno4 Zero_write_call "/d/a"
           (initial_state (one_file [7; 7; 7]%Z) (target 0 true))
           (set_fileData (target 3 false)
              (initial_state (one_file [7; 7; 7]%Z) (target 0 true)))).
  - reflexivity.
  - vm_compute. reflexivity.
  - vm_compute. discriminate.
Defined.

(** ** [init] *)

(** X13. [FileWriter.init] returns exactly when the path names a regular
    file; the record it leaves then describes that file (its path, its
    length as [size], no verification requested, an empty checksum) and the
    file system is untouched.  When it throws, nothing has changed. *)
Theorem FileWriter_init_accepts_files_only (p : string) (s : State) :
  (forall s', FileWriter_init p s = (Return tt, s') ->
     fs s' = fs s /\
     exists c, fs s !! p = Some (File c) /\
       fileData s' = {| path := p; size := length c; checksum := Sha256_new;
                        verifyChecksum := false |}) /\
  (forall c, fs s !! p = Some (File c) ->
     exists s', FileWriter_init p s = (Return tt, s')) /\
  (forall e s', FileWriter_init p s = (Throw e, s') -> s' = s) /\
  (fs s !! p = Some Directory ->
     FileWriter_init p s = (Throw (Error "The specified path is not a file."), s)) /\
  (fs s !! p = None -> FileWriter_init p s = (Throw NotFound, s)).
Proof.
  unfold FileWriter_init, Deno_stat, bind, get, modify, ret, throw.
  destruct (fs s !! p) as [[c|]|]; cbn.
  - split; [ intros s' [= <-]; split; [ reflexivity | eauto ] | ].
    split; [ eauto | ]. split; [ discriminate | ]. split; discriminate.
  - split; [ discriminate | ]. split; [ discriminate | ].
    split; [ intros e s' [= _ <-]; reflexivity | ]. split; [ reflexivity | discriminate ].
  - split; [ discriminate | ]. split; [ discriminate | ].
    split; [ intros e s' [= _ <-]; reflexivity | ]. split; [ discriminate | reflexivity ].
Qed.

(** X14. [DirectoryWriter.init] returns exactly when the path names a
    directory, and then records the path; on a regular file it throws
    [The specified path is not a directory.]; and on no path do
    [FileWriter.init] and [DirectoryWriter.init] both return. *)
Theorem DirectoryWriter_init_accepts_directories_only (p : string) (s : State) :
  (forall s', DirectoryWriter_init p s = (Return tt, s') ->
     fs s !! p = Some Directory /\ fs s' = fs s /\ dir_path (dirData s') = p) /\
  (fs s !! p = Some Directory ->
     exists s', DirectoryWriter_init p s = (Return tt, s')) /\
  (forall c, fs s !! p = Some (File c) ->
     DirectoryWriter_init p s
     = (Throw (Error "The specified path is not a directory."), s)) /\
  ~ ((exists s1, FileWriter_init p s = (Return tt, s1)) /\
     (exists s2, DirectoryWriter_init p s = (Return tt, s2))).
Proof.
  unfold DirectoryWriter_init, FileWriter_init, Deno_stat, bind, get, modify,
    ret, throw.
  destruct (fs s !! p) as [[c|]|]; cbn.
  - split; [ discriminate | ]. split; [ discriminate | ].
    split; [ reflexivity | ]. intros [_ [s2 H]]. discriminate.
  - split; [ intros s' [= <-]; auto | ]. split; [ eauto | ].
    split; [ discriminate | ]. intros [[s1 H] _]. discriminate.
  - split; [ discriminate | ]. split; [ discriminate | ].
    split; [ discriminate | ]. intros [[s1 H] _]. discriminate.
Qed.

(** ** [rename] *)

(** X15. [rename] of a target whose path names nothing throws [NotFound]:
    the file system and the path of the record are as before, and one
    identifier has been drawn all the same. *)
Theorem rename_without_source_throws (rt : Runtime) (dir : bool) (s : State) :
  fs s !! target_path dir s = None ->
  exists s',
    rename rt dir s = (Throw NotFound, s') /\
    fs s' = fs s /\
    target_path dir s' = target_path dir s /\
    uuid_drawn s' = S (uuid_drawn s).
Proof.
  intros Hn. destruct dir; cbn [rename target_path] in *.
  - unfold DirectoryProperties_rename, uuid_v4_generate, Deno_rename,
      bind, get, modify, ret, throw. cbn. rewrite Hn.
    eexists. split; [ reflexivity | ]. auto.
  - unfold FileProperties_rename, uuid_v4_generate, Deno_rename,
      bind, get, modify, ret, throw. cbn. rewrite Hn.
    eexists. split; [ reflexivity | ]. auto.
Qed.

Lemma rename_without_source_throws_witness :
  exists s',
    rename deno true (initial_state (one_file [1]%Z) (target 1 false))
      = (Throw NotFound, s') /\
    fs s' = one_file [1]%Z /\
    target_path true s' = "" /\
    uuid_drawn s' = 1.
Proof.
  apply (rename_without_source_throws deno true
           (initial_state (one_file [1]%Z) (target 1 false))).
  reflexivity.
Defined.



Lemma FileProperties_rename_file (rt : Runtime) (s : State) (c : list Z) :
  fs s !! path (fileData s) = Some (File c) ->
  fs s !! path_join rt (path_dirname rt (path (fileData s)))
            (uuid_v4 rt (uuid_drawn s)) <> Some Directory ->
  exists s',
    FileProperties_rename rt s = (Return tt, s') /\
    fs s' = <[path_join rt (path_dirname rt (path (fileData s)))
                (uuid_v4 rt (uuid_drawn s)) := File c]>
              (delete (path (fileData s)) (fs s)) /\
    fileData s' = with_path (path_join rt (path_dirname rt (path (fileData s)))
                               (uuid_v4 rt (uuid_drawn s))) (fileData s) /\
    crypto_drawn s' = crypto_drawn s.
Proof.
  intros Ho Hn.
  unfold FileProperties_rename, uuid_v4_generate, Deno_rename,
    bind, get, modify, ret. cbn. rewrite Ho.
  destruct (fs s !! path_join rt (path_dirname rt (path (fileData s)))
                      (uuid_v4 rt (uuid_drawn s))) as [[c'|]|] eqn:E;
    try congruence.
  all: eexists; split; [ reflexivity | ]; cbn; auto.
Qed.

(** X17. [rename] and then a write: the write follows the record to the new
    path.  After both, the file at the new path holds what the write
    produced, of the length the file had (or of [size] bytes if that is
    more), and when the new path differs from the old one nothing is at the
    old path. *)
Theorem rename_then_write (rt : Runtime) (i : invocation) (s : State)
    (c : list Z) :
  fs s !! path (fileData s) = Some (File c) ->
  fs s !! path_join rt (path_dirname rt (path (fileData s)))
            (uuid_v4 rt (uuid_drawn s)) <> Some Directory ->
  exists s' c',
    (FileProperties_rename rt;; invoke rt i) s = (Return tt, s') /\
    path (fileData s')
      = path_join rt (path_dirname rt (path (fileData s))) (uuid_v4 rt (uuid_drawn s)) /\
    fs s' !! path (fileData s') = Some (File c') /\
    length c' = Nat.max (length c) (size (fileData s)) /\
    drop (size (fileData s)) c' = drop (size (fileData s)) c /\
    (path (fileData s') <> path (fileData s) -> fs s' !! path (fileData s) = None).
Proof.
  intros Hf Hn.
  destruct (FileProperties_rename_file rt s c Hf Hn)
    as (s1 & Hr & Hfs1 & Hfd1 & Hk1).
  set (newPath := path_join rt (path_dirname rt (path (fileData s)))
                    (uuid_v4 rt (uuid_drawn s))) in *.
  assert (Hf1 : fs s1 !! path (fileData s1) = Some (File c)).
  { rewrite Hfd1, Hfs1. cbn. apply lookup_insert_eq. }
  pose proof (invoke_file rt i s1 c Hf1) as Hw.
  pose proof (stream_length rt (method_for i) (size (fileData s1)) (crypto_drawn s1))
    as Hlen.
  destruct (stream rt (method_for i) (size (fileData s1)) (crypto_drawn s1))
    as [w k]. cbn [fst snd] in *.
  rewrite Hfd1 in Hlen. cbn [size with_path] in Hlen.
  destruct (prepared_frame i s1) as (E1 & E2 & E3).
  exists (after_write (prepared i s1) c w k), (w ++ drop (length w) c).
  split; [ unfold bind at 1; rewrite Hr; exact Hw | ].
  assert (Hp : path (fileData (after_write (prepared i s1) c w k)) = newPath).
  { cbn [after_write fileData]. rewrite E2, Hfd1.
    destruct (verifyChecksum (with_path newPath (fileData s))); reflexivity. }
  rewrite Hp. cbn [after_write fs]. rewrite E1, E2, Hfd1, Hfs1.
  cbn [path with_path]. rewrite insert_insert_eq.
  split; [ reflexivity | ]. split; [ apply lookup_insert_eq | ]. split.
  - rewrite length_app, length_drop. lia.
  - split.
    + rewrite drop_app_ge by lia. rewrite Hlen, Nat.sub_diag. reflexivity.
    + intros Hne. rewrite lookup_insert_ne by assumption. apply lookup_delete_eq.
Qed.

Lemma rename_then_write_witness :
  exists s' c',
    (FileProperties_rename deno4;; invoke deno4 Zero_write_call)
      (initial_state (one_file [7; 8; 9]%Z) (target 3 false)) = (Return tt, s') /\
    path (fileData s') = toy_join (toy_dirname "/d/a") "u" /\
    fs s' !! path (fileData s') = Some (File c') /\
    length c' = Nat.max 3 3 /\
    drop 3 c' = drop 3 [7; 8; 9]%Z /\
    (path (fileData s') <> "/d/a" -> fs s' !! "/d/a" = None).
Proof.
  apply (rename_then_write deno4 Zero_write_call
           (initial_state (one_file [7; 8; 9]%Z) (target 3 false)) [7; 8; 9]%Z).
  - reflexivity.
  - vm_compute. discriminate.
Defined.

(** X26. A [rename] whose paths [Deno.rename] does not accept (a file onto
    a directory; a directory onto a file, onto a directory that is not
    empty, or below itself) throws the error of the operating system: the
    file system and the path of the record are as before, and one identifier
    has been drawn. *)
Theorem rename_refused_throws (rt : Runtime) (dir : bool) (s : State)
    (o : node) :
  fs s !! target_path dir s = Some o ->
  ~ rename_accepts (fs s) o (target_path dir s)
      (path_join rt (path_dirname rt (target_path dir s))
         (uuid_v4 rt (uuid_drawn s))) ->
  exists msg s',
    rename rt dir s = (Throw (OsError msg), s') /\
    fs s' = fs s /\
    target_path dir s' = target_path dir s /\
    uuid_drawn s' = S (uuid_drawn s).
Proof.
  intros Ho Hacc. rewrite rename_eq. cbv zeta.
  destruct (Deno_rename_refused (target_path dir s)
              (path_join rt (path_dirname rt (target_path dir s))
                 (uuid_v4 rt (uuid_drawn s)))
              (set_uuid_drawn (S (uuid_drawn s)) s) o Ho Hacc) as (msg & Hr).
  rewrite Hr. eexists _, _. split; [ reflexivity | ].
  destruct dir; cbn; auto.
Qed.

Lemma rename_refused_throws_witness :
  exists msg s',
    rename deno true (dir_state (<["/d/a" := Directory]> two_files) "/d/a")
      = (Throw (OsError msg), s') /\
    fs s' = <["/d/a" := Directory]> two_files /\
    target_path true s' = "/d/a" /\
    uuid_drawn s' = 1.
Proof.
  refine (rename_refused_throws deno true
            (dir_state (<["/d/a" := Directory]> two_files) "/d/a") Directory _ _).
  - reflexivity.
  - intros [H|[H _]]; [ discriminate | ]. apply (H [2]%Z). reflexivity.
Defined.

(** ** [truncate] *)

Lemma FileProperties_truncate_file (rt : Runtime) (s : State) (c : list Z) :
  fs s !! path (fileData s) = Some (File c) ->
  exists s1,
    FileProperties_truncate rt s = (Return tt, s1) /\
    fs s1 = <[path (fileData s) :=
                File (take (Z.to_nat (truncate_newSize (math_random rt (random_drawn s))
                                        (size (fileData s)))) c
                      ++ replicate
                           (Z.to_nat (truncate_newSize (math_random rt (random_drawn s))
                                        (size (fileData s))) - length c) 0%Z)]>
              (fs s) /\
    fileData s1
      = with_size (Z.to_nat (truncate_newSize (math_random rt (random_drawn s))
                               (size (fileData s)))) (fileData s).
Proof.
  intros Hf.
  unfold FileProperties_truncate, Math_random, Deno_truncate, bind, get,
    modify, ret. cbn. rewrite Hf.
  eexists. split; [ reflexivity | ]. cbn. auto.
Qed.

(** X18. [truncate] never grows a file that is as long as its record says:
    for a draw of [Math.random] in [0, 1) the new size is at most the old one
    and the file is left with its first [newSize] bytes, unchanged.  With
    size 0 the file stays empty. *)
Theorem truncate_keeps_a_prefix (rt : Runtime) (s : State) (c : list Z) :
  fs s !! path (fileData s) = Some (File c) ->
  length c = size (fileData s) ->
  (0 <= math_random rt (random_drawn s))%Q ->
  (math_random rt (random_drawn s) < 1)%Q ->
  exists s',
    FileProperties_truncate rt s = (Return tt, s') /\
    size (fileData s') <= size (fileData s) /\
    fs s' = <[path (fileData s) := File (take (size (fileData s')) c)]> (fs s) /\
    path (fileData s') = path (fileData s).
Proof.
  intros Hf Hlen Hu0 Hu1.
  destruct (truncate_newSize_range _ (size (fileData s)) Hu0 Hu1) as [Hlo Hhi].
  destruct (FileProperties_truncate_file rt s c Hf) as (s1 & Hr & Hfs1 & Hfd1).
  set (newSize := Z.to_nat (truncate_newSize (math_random rt (random_drawn s))
                              (size (fileData s)))) in *.
  assert (Hle : newSize <= size (fileData s)) by (unfold newSize; lia).
  exists s1. split; [ exact Hr | ].
  rewrite Hfs1, Hfd1. cbn [size path with_size].
  split; [ exact Hle | ]. split; [ | reflexivity ].
  replace (newSize - length c) with 0 by lia.
  cbn [replicate]. rewrite app_nil_r. reflexivity.
Qed.

Lemma truncate_keeps_a_prefix_witness :
  exists s',
    FileProperties_truncate deno_half
      (initial_state (one_file [1; 2; 3; 4; 5; 6; 7; 8]%Z) (target 8 false))
      = (Return tt, s') /\
    size (fileData s') <= 8 /\
    fs s' = <["/d/a" := File (take (size (fileData s')) [1; 2; 3; 4; 5; 6; 7; 8]%Z)]>
              (one_file [1; 2; 3; 4; 5; 6; 7; 8]%Z) /\
    path (fileData s') = "/d/a".
Proof.
  apply (truncate_keeps_a_prefix deno_half
           (initial_state (one_file [1; 2; 3; 4; 5; 6; 7; 8]%Z) (target 8 false))
           [1; 2; 3; 4; 5; 6; 7; 8]%Z).
  - reflexivity.
  - reflexivity.
  - cbn. discriminate.
  - reflexivity.
Defined.

(** X19. [truncate] of a target whose path names nothing throws [NotFound]
    and leaves the record with the size it had; the draw of [Math.random]
    has been made. *)
Theorem truncate_without_file_throws (rt : Runtime) (s : State) :
  fs s !! path (fileData s) = None ->
  exists s',
    FileProperties_truncate rt s = (Throw NotFound, s') /\
    fs s' = fs s /\
    fileData s' = fileData s /\
    random_drawn s' = S (random_drawn s).
Proof.
  intros Hn.
  unfold FileProperties_truncate, Math_random, Deno_truncate, bind, get, modify,
    ret, throw. cbn. rewrite Hn.
  eexists. split; [ reflexivity | ]. auto.
Qed.

Lemma truncate_without_file_throws_witness :
  exists s',
    FileProperties_truncate deno (initial_state ∅ (target 8 false))
      = (Throw NotFound, s') /\
    fs s' = ∅ /\
    fileData s' = target 8 false /\
    random_drawn s' = 1.
Proof.
  apply (truncate_without_file_throws deno (initial_state ∅ (target 8 false))).
  reflexivity.
Defined.

(** X20. [truncate] leaves a record that describes the file, whatever the
    record said before: [verifyNext] and a write after it overwrite the
    whole of the truncated file, which then has exactly [size] bytes, and the
    verification at the end of the write finds equal digests. *)
Theorem truncate_then_verified_write (rt : Runtime) (i : invocation)
    (s : State) (c : list Z) :
  fs s !! path (fileData s) = Some (File c) ->
  exists s' w,
    (FileProperties_truncate rt;; FileWriter_verifyNext;; invoke rt i) s
      = (Return tt, s') /\
    fs s' !! path (fileData s') = Some (File w) /\
    length w = size (fileData s') /\
    FileWriter_verify rt s' = (Return None, s').
Proof.
  intros Hf.
  set (newSize := Z.to_nat (truncate_newSize (math_random rt (random_drawn s))
                              (size (fileData s)))).
  set (c1 := take newSize c ++ replicate (newSize - length c) 0%Z).
  destruct (FileProperties_truncate_file rt s c Hf) as (s1 & Hr & Hfs1 & Hfd1).
  fold newSize in Hfs1, Hfd1. fold c1 in Hfs1.
  assert (Hc1 : length c1 = newSize).
  { unfold c1. rewrite length_app, length_take, length_replicate. lia. }
  destruct (verified_write rt i s1 c1) as (s' & w & Hw & Hfs & Hl & Hp & Hsz & Hck).
  - rewrite Hfd1, Hfs1. cbn. apply lookup_insert_eq.
  - rewrite Hfd1. cbn. lia.
  - rewrite Hfd1 in Hp, Hsz, Hl, Hfs. cbn [path size with_size] in *.
    exists s', w. split; [ unfold bind at 1; rewrite Hr; exact Hw | ].
    assert (Hfw : fs s' !! path (fileData s') = Some (File w))
      by (rewrite Hp, Hfs; apply lookup_insert_eq).
    split; [ exact Hfw | ]. split; [ lia | ].
    rewrite (FileWriter_verify_file rt s' w Hfw). unfold Sha256_hex.
    rewrite Hck. cbn [message]. rewrite String.eqb_refl. reflexivity.
Qed.

Lemma truncate_then_verified_write_witness :
  exists s' w,
    (FileProperties_truncate deno_half;; FileWriter_verifyNext;;
     invoke deno_half (Byte_write_call 65))
      (initial_state (one_file [1; 2; 3; 4; 5; 6; 7; 8]%Z) (target 8 false))
      = (Return tt, s') /\
    fs s' !! path (fileData s') = Some (File w) /\
    length w = size (fileData s') /\
    FileWriter_verify deno_half s' = (Return None, s').
Proof.
  apply (truncate_then_verified_write deno_half (Byte_write_call 65)
           (initial_state (one_file [1; 2; 3; 4; 5; 6; 7; 8]%Z) (target 8 false))
           [1; 2; 3; 4; 5; 6; 7; 8]%Z).
  reflexivity.
Defined.

(** ** A whole pass *)

(** X21. [init] on a file and then [Byte.write(byte)]: the write completes
    and the file has the length it had, every byte of it [byte mod 256]; the
    rest of the file system is untouched. *)
Theorem init_then_Byte_write (rt : Runtime) (byte : Z) (p : string)
    (s0 s1 : State) :
  FileWriter_init p s0 = (Return tt, s1) ->
  exists s2 c,
    fs s0 !! p = Some (File c) /\
    Byte_write rt byte s1 = (Return tt, s2) /\
    fs s2 = <[p := File (replicate (length c) (byte mod 256)%Z)]> (fs s0) /\
    size (fileData s2) = length c.
Proof.
  intros Hinit. destruct (FileWriter_init_file _ _ _ Hinit) as (c & Hf & ->).
  pose proof (invoke_file rt (Byte_write_call byte)
                (set_fileData {| path := p; size := length c;
                                 checksum := Sha256_new; verifyChecksum := false |} s0)
                c Hf) as Hw.
  rewrite (stream_of_constant rt _ (byte mod 256)%Z) in Hw
    by (intros b' k'; reflexivity).
  cbn [invoke fst snd fileData set_fileData size crypto_drawn] in Hw.
  eexists _, c. split; [ exact Hf | ]. split; [ exact Hw | ].
  cbn. rewrite length_replicate, drop_all, app_nil_r. auto.
Qed.

Lemma init_then_Byte_write_witness :
  exists s2 c,
    one_file (replicate 10 9%Z) !! "/d/a" = Some (File c) /\
    Byte_write deno4 65
      (set_fileData (target 10 false)
         (initial_state (one_file (replicate 10 9%Z)) (target 0 true)))
      = (Return tt, s2) /\
    fs s2 = <["/d/a" := File (replicate (length c) (65 mod 256)%Z)]>
              (one_file (replicate 10 9%Z)) /\
    size (fileData s2) = length c.
Proof.
  apply (init_then_Byte_write deno4 65 "/d/a"
           (initial_state (one_file (replicate 10 9%Z)) (target 0 true))).
  reflexivity.
Defined.

(** ** Timestamps *)

Lemma Date_of_between (v : Q) (lo hi : Z) :
  (inject_Z lo <= v)%Q -> (v <= inject_Z hi)%Q ->
  (lo <= Date_of v <= hi)%Z.
Proof.
  destruct v as [n d]. unfold Qle, Date_of, inject_Z. cbn [Qnum Qden].
  intros Hlo Hhi.
  pose proof (Z.quot_rem' n (Z.pos d)) as Hqr.
  assert (Hr : (0 <= n -> 0 <= Z.rem n (Z.pos d) < Z.pos d)%Z /\
               (n < 0 -> - Z.pos d < Z.rem n (Z.pos d) <= 0)%Z).
  { split; intros Hn.
    - apply Z.rem_bound_pos; [ exact Hn | reflexivity ].
    - apply Z.rem_bound_pos_neg; [ reflexivity | lia ]. }
  revert Hqr Hr.
  generalize (Z.quot n (Z.pos d)) (Z.rem n (Z.pos d)). intros q r Hqr [Hpos Hneg].
  split.
  - apply Z.lt_pred_le. apply (Z.mul_lt_mono_pos_l (Z.pos d)); [ reflexivity | ].
    destruct (Z.le_gt_cases 0 n) as [Hn|Hn];
      [ specialize (Hpos Hn) | specialize (Hneg Hn) ]; nia.
  - apply Z.lt_succ_r. apply (Z.mul_lt_mono_pos_l (Z.pos d)); [ reflexivity | ].
    destruct (Z.le_gt_cases 0 n) as [Hn|Hn];
      [ specialize (Hpos Hn) | specialize (Hneg Hn) ]; nia.
Qed.

Lemma randomValueBetween_eq (rt : Runtime) (min max : Q) (s : State) :
  randomValueBetween rt min max s
  = (Return (math_random rt (random_drawn s) * (max - min) + min)%Q,
     set_random_drawn (S (random_drawn s)) s).
Proof. reflexivity. Qed.

(** X22. [randomValueBetween] with a draw of [Math.random] in [0, 1) gives
    a value between its two arguments, in whichever order they come, and
    exactly their common value when they are equal. *)
Theorem randomValueBetween_between (rt : Runtime) (min max : Q) (s : State) :
  (0 <= math_random rt (random_drawn s))%Q ->
  (math_random rt (random_drawn s) < 1)%Q ->
  exists v,
    randomValueBetween rt min max s = (Return v, set_random_drawn (S (random_drawn s)) s) /\
    ((min <= max)%Q -> (min <= v)%Q /\ (v <= max)%Q) /\
    ((max <= min)%Q -> (max <= v)%Q /\ (v <= min)%Q) /\
    ((min == max)%Q -> (v == min)%Q).
Proof.
  intros Hu0 Hu1.
  unfold randomValueBetween, Math_random, bind, get, modify, ret. cbn.
  eexists. split; [ reflexivity | ].
  set (u := math_random rt (random_drawn s)) in *.
  split; [ intros H; split; nra | ].
  split; [ intros H; split; nra | ].
  intros H. rewrite H. ring.
Qed.

Lemma randomValueBetween_between_witness :
  exists v,
    randomValueBetween deno_half 10 20 (initial_state ∅ (target 0 false))
      = (Return v, set_random_drawn 1 (initial_state ∅ (target 0 false))) /\
    ((10 <= 20)%Q -> (10 <= v)%Q /\ (v <= 20)%Q) /\
    ((20 <= 10)%Q -> (20 <= v)%Q /\ (v <= 10)%Q) /\
    ((10 == 20)%Q -> (v == 10)%Q).
Proof.
  apply (randomValueBetween_between deno_half 10 20
           (initial_state ∅ (target 0 false))).
  - cbn. discriminate.
  - reflexivity.
Defined.

(** X23. [changeTimestamps], of a file or of a directory, on an existing
    target and with a draw of [Math.random] in [0, 1): the access time and
    the modification time of the target are set to one and the same date,
    which lies between [date1] (the epoch when absent) and [date2] (now when
    absent) in whichever order they come, and is that very date when the
    two are equal; the times of other paths, the file system and the
    records are untouched. *)
Theorem changeTimestamps_between (rt : Runtime) (dir : bool) (now : Z)
    (date1 date2 : option Z) (times : gmap string (Z * Z)) (s : State)
    (o : node) :
  fs s !! target_path dir s = Some o ->
  (0 <= math_random rt (random_drawn s))%Q ->
  (math_random rt (random_drawn s) < 1)%Q ->
  exists d,
    changeTimestamps rt dir now date1 date2 times s
      = (Return (<[target_path dir s := (d, d)]> times),
         set_random_drawn (S (random_drawn s)) s) /\
    (Z.min (default 0 date1) (default now date2) <= d
       <= Z.max (default 0 date1) (default now date2))%Z /\
    (default 0%Z date1 = default now date2 -> d = default 0%Z date1).
Proof.
  intros Ho Hu0 Hu1.
  set (d1 := default 0%Z date1). set (d2 := default now date2).
  pose proof (randomValueBetween_eq rt (inject_Z d2) (inject_Z d1) s) as Hv.
  set (u := math_random rt (random_drawn s)) in *.
  set (v := (u * (inject_Z d1 - inject_Z d2) + inject_Z d2)%Q) in *.
  assert (Hle : (inject_Z d2 <= inject_Z d1)%Q ->
                (inject_Z d2 <= v)%Q /\ (v <= inject_Z d1)%Q)
    by (intros H; unfold v; split; nra).
  assert (Hge : (inject_Z d1 <= inject_Z d2)%Q ->
                (inject_Z d1 <= v)%Q /\ (v <= inject_Z d2)%Q)
    by (intros H; unfold v; split; nra).
  assert (Hd : (Z.min d1 d2 <= Date_of v <= Z.max d1 d2)%Z).
  { destruct (Z.le_gt_cases d2 d1) as [H|H].
    - destruct Hle as [Ha Hb]; [ rewrite <- Zle_Qle; exact H | ].
      pose proof (Date_of_between v d2 d1 Ha Hb). lia.
    - destruct Hge as [Ha Hb]; [ rewrite <- Zle_Qle; lia | ].
      pose proof (Date_of_between v d1 d2 Ha Hb). lia. }
  exists (Date_of v). split; [ | split; [ exact Hd | fold d1 d2; lia ] ].
  unfold changeTimestamps. fold d1 d2. unfold bind at 1. rewrite Hv.
  unfold Deno_utime, bind, get.
  assert (Hp : target_path dir (set_random_drawn (S (random_drawn s)) s)
               = target_path dir s) by (destruct dir; reflexivity).
  rewrite Hp. cbn [fs set_random_drawn]. rewrite Ho. reflexivity.
Qed.

Lemma changeTimestamps_between_witness :
  exists d,
    changeTimestamps deno_half false 1000 None None ∅
      (initial_state (one_file [1]%Z) (target 1 false))
      = (Return (<["/d/a" := (d, d)]> ∅),
         set_random_drawn 1 (initial_state (one_file [1]%Z) (target 1 false))) /\
    (Z.min 0 1000 <= d <= Z.max 0 1000)%Z /\
    (0%Z = 1000%Z -> d = 0%Z).
Proof.
  apply (changeTimestamps_between deno_half false 1000 None None ∅
           (initial_state (one_file [1]%Z) (target 1 false)) (File [1]%Z)).
  - reflexivity.
  - cbn. discriminate.
  - reflexivity.
Defined.

(** X24. [resetTimestamps], of a file or of a directory, on an existing
    target sets its access and modification times to the epoch and nothing
    else: the times of every other path and the whole state are as before,
    and it undoes a [changeTimestamps] made before it. *)
Theorem resetTimestamps_sets_epoch (rt : Runtime) (dir : bool) (now : Z)
    (date1 date2 : option Z) (times : gmap string (Z * Z)) (s : State)
    (o : node) :
  fs s !! target_path dir s = Some o ->
  resetTimestamps dir times s
    = (Return (<[target_path dir s := (0, 0)%Z]> times), s) /\
  (forall q, q <> target_path dir s ->
     <[target_path dir s := (0, 0)%Z]> times !! q = times !! q) /\
  (forall times' s',
     changeTimestamps rt dir now date1 date2 times s = (Return times', s') ->
     resetTimestamps dir times' s'
       = (Return (<[target_path dir s := (0, 0)%Z]> times), s')).
Proof.
  intros Ho.
  split; [ unfold resetTimestamps, Deno_utime, bind, get; rewrite Ho; reflexivity | ].
  split; [ intros q Hq; apply lookup_insert_ne; congruence | ].
  intros times' s'. unfold changeTimestamps, randomValueBetween, Math_random,
    Deno_utime, bind, get, modify, ret. cbn [fs set_random_drawn].
  assert (Hp : target_path dir (set_random_drawn (S (random_drawn s)) s)
               = target_path dir s) by (destruct dir; reflexivity).
  rewrite Hp, Ho. intros [= <- <-].
  unfold resetTimestamps, Deno_utime, bind, get. rewrite Hp.
  cbn [fs set_random_drawn]. rewrite Ho, insert_insert_eq. reflexivity.
Qed.

Lemma resetTimestamps_sets_epoch_witness :
  let s := set_dirData {| dir_path := "/d" |}
             (initial_state (file_and_dir [1]%Z) (target 1 false)) in
  let times := <["/d/a" := (5, 6)%Z]> (∅ : gmap string (Z * Z)) in
  resetTimestamps true times s = (Return (<["/d" := (0, 0)%Z]> times), s) /\
  (forall q, q <> "/d" -> <["/d" := (0, 0)%Z]> times !! q = times !! q) /\
  (forall times' s',
     changeTimestamps deno_half true 1000 (Some 7%Z) None times s = (Return times', s') ->
     resetTimestamps true times' s' = (Return (<["/d" := (0, 0)%Z]> times), s')).
Proof.
  apply (resetTimestamps_sets_epoch deno_half true 1000 (Some 7%Z) None
           (<["/d/a" := (5, 6)%Z]> ∅)
           (set_dirData {| dir_path := "/d" |}
              (initial_state (file_and_dir [1]%Z) (target 1 false)))
           Directory).
  reflexivity.
Defined.

(** X25. On a target whose path names nothing, [resetTimestamps] and
    [changeTimestamps] throw [NotFound] and set no time; [changeTimestamps]
    has drawn its random number before. *)
Theorem timestamps_without_target_throw (rt : Runtime) (dir : bool) (now : Z)
    (date1 date2 : option Z) (times : gmap string (Z * Z)) (s : State) :
  fs s !! target_path dir s = None ->
  resetTimestamps dir times s = (Throw NotFound, s) /\
  changeTimestamps rt dir now date1 date2 times s
    = (Throw NotFound, set_random_drawn (S (random_drawn s)) s).
Proof.
  intros Hn. split.
  - unfold resetTimestamps, Deno_utime, bind, get. rewrite Hn. reflexivity.
  - unfold changeTimestamps, randomValueBetween, Math_random, Deno_utime, bind,
      get, modify, ret. cbn [fs set_random_drawn].
    assert (Hp : target_path dir (set_random_drawn (S (random_drawn s)) s)
                 = target_path dir s) by (destruct dir; reflexivity).
    rewrite Hp, Hn. reflexivity.
Qed.

Lemma timestamps_without_target_throw_witness :
  let s := initial_state ∅ (target 1 false) in
  resetTimestamps false ∅ s = (Throw NotFound, s) /\
  changeTimestamps deno_half false 1000 None None ∅ s
    = (Throw NotFound, set_random_drawn 1 s).
Proof.
  apply (timestamps_without_target_throw deno_half false 1000 None None ∅
           (initial_state ∅ (target 1 false))).
  reflexivity.
Defined.
